(** * PostHog click-event sync: a shallow embedding and its properties

    The development follows [utils.py], [sqlalchemy_setup.py] and [main.py]:
    - Python values that come out of [response.json()] are the type [json];
    - code that can raise lives in the [result] monad;
    - the HTTP provider, the database server and the clock are explicit
      parameters or explicit state;
    - [fetch_events], [transform_event], [store_events],
      [sync_posthog_events] and [main] keep the source's names. *)

From Stdlib Require Import ZArith List String Ascii Bool Lia.
From Stdlib Require Import DecimalString DecimalZ.
Import ListNotations.
Local Open Scope string_scope.
Local Open Scope list_scope.

(* ------------------------------------------------------------------ *)
(** ** Exceptions and the result monad *)

(** The exception classes the three source files can let escape. *)
Inductive exn : Type :=
| EnvironmentError (msg : string)   (* raised by the two configuration checks *)
| AttributeError                    (* [.get] or [.endswith] on a value that has none *)
| TypeError                         (* subscripting or iterating a scalar *)
| KeyError                          (* [elements[0]] on a JSON object *)
| IndexError                        (* [v[0]] on an empty sequence *)
| ValueError                        (* [datetime.fromisoformat] refused the text *)
| OverflowError                     (* [end - timedelta(days=1)] left the date range *)
| ConnectionError                   (* [session.get] raised: no HTTP response at all *)
| HTTPError (status : Z)            (* [response.raise_for_status()] *)
| JSONDecodeError                   (* [response.json()] on a body that is not JSON *)
| IntegrityError                    (* a constraint of [click_events] refused an INSERT *)
| DataError                         (* a value outside the type its column declares *)
| InvalidRequestError               (* [Session.get] cannot make a primary key of the identity *)
| OperationalError.                 (* the database server failed a statement *)

Inductive result (A : Type) : Type :=
| Return (a : A)
| Raise (e : exn).
Arguments Return {A} a.
Arguments Raise {A} e.

Definition bind {A B : Type} (m : result A) (k : A -> result B) : result B :=
  match m with
  | Return a => k a
  | Raise e => Raise e
  end.

Notation "x <- m ;; k" := (bind m (fun x => k))
  (at level 61, m at next level, right associativity).

Definition returns {A : Type} (m : result A) : bool :=
  match m with Return _ => true | Raise _ => false end.

(* ------------------------------------------------------------------ *)
(** ** Python values decoded from JSON *)

(** A Python [str] is a [string] whose characters are the code points
    U+0000..U+00FF.  A Python [float] is carried by the literal that
    [json.dumps] prints for it ([float.__repr__], or [NaN], [Infinity],
    [-Infinity]); [None] is [JNull]; a [dict] keeps its insertion order. *)
#[warnings="-register-all"]
Inductive json : Type :=
| JNull
| JBool (b : bool)
| JInt (n : Z)
| JFloat (lit : string)
| JStr (s : string)
| JArr (items : list json)
| JObj (fields : list (string * json)).

(** Python truth value, as tested by [if x], [x or y] and [while x]. *)
Definition truthy (v : json) : bool :=
  match v with
  | JNull => false
  | JBool b => b
  | JInt n => negb (Z.eqb n 0)
  | JFloat lit => negb (String.eqb lit "0.0" || String.eqb lit "-0.0")
  | JStr s => negb (String.eqb s "")
  | JArr items => match items with [] => false | _ :: _ => true end
  | JObj fields => match fields with [] => false | _ :: _ => true end
  end.

(** [a or b] *)
Definition py_or (a b : json) : json := if truthy a then a else b.

(** Lookup in a [dict]: keys are unique, so the first binding is the binding. *)
Fixpoint dict_get (d : list (string * json)) (k : string) : option json :=
  match d with
  | [] => None
  | (k', v) :: d' => if String.eqb k' k then Some v else dict_get d' k
  end.

(** [d.get(k, dflt)] on a [dict]. *)
Definition get_or (d : list (string * json)) (k : string) (dflt : json) : json :=
  match dict_get d k with
  | Some x => x
  | None => dflt
  end.

(** [v.get(k, dflt)]: only a [dict] has [get]. *)
Definition py_get (v : json) (k : string) (dflt : json) : result json :=
  match v with
  | JObj d => Return (get_or d k dflt)
  | _ => Raise AttributeError
  end.

(** [v[0]]; the source only evaluates it on a truthy [v]. *)
Definition py_first (v : json) : result json :=
  match v with
  | JArr (x :: _) => Return x
  | JArr [] => Raise IndexError
  | JStr (String c _) => Return (JStr (String c EmptyString))
  | JStr EmptyString => Raise IndexError
  | JObj _ => Raise KeyError
  | JNull | JBool _ | JInt _ | JFloat _ => Raise TypeError
  end.

(** What [list.extend(v)] appends: the items of a list, the characters of a
    [str], the keys of a [dict]; scalars are not iterable. *)
Definition py_iter (v : json) : result (list json) :=
  match v with
  | JArr items => Return items
  | JStr s => Return (map (fun c => JStr (String c EmptyString)) (list_ascii_of_string s))
  | JObj d => Return (map (fun kv => JStr (fst kv)) d)
  | JNull | JBool _ | JInt _ | JFloat _ => Raise TypeError
  end.

(* ------------------------------------------------------------------ *)
(** ** [json.dumps] with its default arguments *)

Definition hex_digit (n : N) : ascii :=
  ascii_of_N (if N.ltb n 10 then 48 + n else 87 + n)%N.

(** [ESCAPE_ASCII]: the quote and the backslash, and everything outside
    [' '..'~'], are escaped; the five short escapes, else [\u00xx]. *)
Definition escape_char (c : ascii) : string :=
  let n := N_of_ascii c in
  if N.eqb n 34 then String "\" (String c EmptyString)
  else if N.eqb n 92 then "\\"
  else if N.eqb n 10 then "\n"
  else if N.eqb n 13 then "\r"
  else if N.eqb n 9 then "\t"
  else if N.eqb n 8 then "\b"
  else if N.eqb n 12 then "\f"
  else if (N.leb 32 n && N.leb n 126)%bool then String c EmptyString
  else ("\u00" ++ String (hex_digit (N.div n 16))
                      (String (hex_digit (N.modulo n 16)) EmptyString))%string.

Fixpoint escape_chars (s : string) : string :=
  match s with
  | EmptyString => EmptyString
  | String c s' => (escape_char c ++ escape_chars s')%string
  end.

Definition quote : ascii := ascii_of_N 34.

Definition encode_string (s : string) : string :=
  String quote (escape_chars s ++ String quote EmptyString)%string.

Definition encode_int (n : Z) : string := NilZero.string_of_int (Z.to_int n).

Fixpoint json_dumps (v : json) : string :=
  match v with
  | JNull => "null"
  | JBool true => "true"
  | JBool false => "false"
  | JInt n => encode_int n
  | JFloat lit => lit
  | JStr s => encode_string s
  | JArr items => ("[" ++ String.concat ", " (map json_dumps items) ++ "]")%string
  | JObj fields =>
      ("{" ++ String.concat ", "
                (map (fun kv => encode_string (fst kv) ++ ": " ++ json_dumps (snd kv)) fields)
           ++ "}")%string
  end.

(* ------------------------------------------------------------------ *)
(** ** String helpers of the source *)

(** [s.endswith(suffix)] *)
Fixpoint endswith (s suffix : string) : bool :=
  if String.eqb s suffix then true
  else match s with
       | EmptyString => false
       | String _ s' => endswith s' suffix
       end.

(** [s[:-1]] *)
Fixpoint drop_last (s : string) : string :=
  match s with
  | EmptyString => EmptyString
  | String c EmptyString => EmptyString
  | String c s' => String c (drop_last s')
  end.

(** [s.rstrip(c)] for a one-character set *)
Fixpoint rstrip (c : ascii) (s : string) : string :=
  match s with
  | EmptyString => EmptyString
  | String a s' =>
      match rstrip c s' with
      | EmptyString => if Ascii.eqb a c then EmptyString else String a EmptyString
      | r => String a r
      end
  end.

(* ------------------------------------------------------------------ *)
(** ** Data transformation ([utils.py], lines 160-225) *)

Section Transform.
(** [datetime] values, and the two library calls the source makes on them:
    [datetime.fromisoformat] ([None] when it raises [ValueError]). *)
Context {datetime : Type}.
Variable fromisoformat : string -> option datetime.

(** A row of [click_events]; every column holds the Python value that
    [transform_event] passed to the constructor. *)
Record ClickEvent : Type := Build_ClickEvent {
  id : json;
  distinct_id : json;
  timestamp : datetime;
  current_url : json;
  pathname : json;
  event_type : json;
  element_text : json;
  element_tag : json;
  element_href : json;
  browser : json;
  os : json;
  country_code : json;
  referrer : json;
  referring_domain : json;
  city_name : json;
  region_name : json;
  country_name : json;
  postal_code : json;
  latitude : json;
  longitude : json;
  device_type : json;
  os_version : json;
  browser_version : json;
  viewport_width : json;
  viewport_height : json;
  session_id : json;
  raw_data : string
}.

(** The [for fmt in (...)] loop: each round calls [fromisoformat] on the
    same text and goes on to the next format on [ValueError]. *)
Fixpoint try_formats (fmts : list string) (dt_str : string) : option datetime :=
  match fmts with
  | [] => None
  | _ :: rest =>
      match fromisoformat dt_str with
      | Some d => Some d
      | None => try_formats rest dt_str
      end
  end.

Definition _parse_iso_datetime (dt_str : json) : result datetime :=
  match dt_str with
  | JStr s =>
      let s := if endswith s "Z" then drop_last s else s in
      match try_formats ["%Y-%m-%dT%H:%M:%S.%f"; "%Y-%m-%dT%H:%M:%S"] s with
      | Some d => Return d
      | None =>
          match fromisoformat s with
          | Some d => Return d
          | None => Raise ValueError
          end
      end
  | _ => Raise AttributeError
  end.

(** [utcnow] is what [datetime.utcnow()] answers at this call. *)
Definition transform_event (utcnow : datetime) (event : json) : result ClickEvent :=
  ts_str <- py_get event "timestamp" JNull ;;
  timestamp <- (if truthy ts_str then _parse_iso_datetime ts_str else Return utcnow) ;;
  event_id <- py_get event "id" (JStr "") ;;
  distinct_id <- py_get event "distinct_id" (JStr "") ;;
  props0 <- py_get event "properties" (JObj []) ;;
  let props := py_or props0 (JObj []) in
  elements0 <- py_get event "elements" (JArr []) ;;
  let elements := py_or elements0 (JArr []) in
  first_el <- (if truthy elements then py_first elements else Return (JObj [])) ;;
  current_url <- py_get props "$current_url" JNull ;;
  pathname <- py_get props "$pathname" JNull ;;
  event_type <- py_get props "$event_type" JNull ;;
  el_text <- py_get props "$el_text" JNull ;;
  element_text <- (if truthy el_text then Return el_text else py_get first_el "text" JNull) ;;
  element_tag <- py_get first_el "tag_name" JNull ;;
  element_href <- py_get first_el "href" JNull ;;
  browser <- py_get props "$browser" JNull ;;
  os <- py_get props "$os" JNull ;;
  country_code <- py_get props "$geoip_country_code" JNull ;;
  referrer <- py_get props "$referrer" JNull ;;
  referring_domain <- py_get props "$referring_domain" JNull ;;
  city_name <- py_get props "$geoip_city_name" JNull ;;
  region_name <- py_get props "$geoip_subdivision_1_name" JNull ;;
  country_name <- py_get props "$geoip_country_name" JNull ;;
  postal_code <- py_get props "$geoip_postal_code" JNull ;;
  latitude <- py_get props "$geoip_latitude" JNull ;;
  longitude <- py_get props "$geoip_longitude" JNull ;;
  device_type <- py_get props "$device_type" JNull ;;
  os_version <- py_get props "$os_version" JNull ;;
  browser_version <- py_get props "$browser_version" JNull ;;
  viewport_width <- py_get props "$viewport_width" JNull ;;
  viewport_height <- py_get props "$viewport_height" JNull ;;
  session_id <- py_get props "$session_id" JNull ;;
  Return (Build_ClickEvent event_id distinct_id timestamp current_url pathname
            event_type element_text element_tag element_href browser os
            country_code referrer referring_domain city_name region_name
            country_name postal_code latitude longitude device_type os_version
            browser_version viewport_width viewport_height session_id
            (json_dumps event)).
End Transform.
Arguments ClickEvent datetime : clear implicits.

(* ------------------------------------------------------------------ *)
(** ** Configuration ([utils.py], lines 53-71) *)

(** The process environment after [load_dotenv()]: [os.getenv]. *)
Definition environ : Type := string -> option string.

(** Truth value of an [Optional[str]]: [None] and the empty text are false. *)
Definition is_set (v : option string) : bool :=
  match v with
  | Some s => negb (String.eqb s "")
  | None => false
  end.

Definition getenv_or (env : environ) (name dflt : string) : string :=
  match env name with
  | Some v => v
  | None => dflt
  end.

(** The text of an [Optional[str]] that was tested to be set. *)
Definition text (v : option string) : string :=
  match v with
  | Some s => s
  | None => ""
  end.

Record posthog_config : Type := {
  api_key : string;
  project_id : string;
  base_url : string
}.

Definition posthog_config_message : string :=
  "POSTHOG_API_KEY and POSTHOG_PROJECT_ID must be set in the environment.".

Definition _get_posthog_config (env : environ) : result posthog_config :=
  let api_key := env "POSTHOG_API_KEY" in
  let project_id := env "POSTHOG_PROJECT_ID" in
  let base_url := getenv_or env "POSTHOG_BASE_HOST" "https://us.posthog.com" in
  if negb (is_set api_key) || negb (is_set project_id)
  then Raise (EnvironmentError posthog_config_message)
  else Return {| api_key := text api_key;
                 project_id := text project_id;
                 base_url := rstrip "/" base_url |}.

(* ------------------------------------------------------------------ *)
(** ** API interaction ([utils.py], lines 82-149) *)

(** One call of [session.get]: the URL, the headers, the [params=] keyword
    when it is passed, and the timeout. *)
Record request : Type := {
  req_url : json;
  req_headers : list (string * string);
  req_params : option (list (string * json));
  req_timeout : Z
}.

(** What comes back: no response at all ([session.get] raises), or a status
    with a body that [response.json()] decodes ([None]: it raises). *)
Inductive response : Type :=
| NoResponse
| Response (status : Z) (body : option json).

(** The provider answers the last request of a history of requests, so its
    answer may depend on everything it was asked before. *)
Definition provider : Type := list request -> response.

(** [response.raise_for_status()] raises on 4xx and 5xx. *)
Definition raise_for_status (status : Z) : result unit :=
  if (400 <=? status)%Z && (status <? 600)%Z then Raise (HTTPError status) else Return tt.

(** [next_url == url], the right-hand side being a [str]. *)
Definition eq_str (v : json) (s : string) : bool :=
  match v with
  | JStr s' => String.eqb s' s
  | _ => false
  end.

Section Fetch.
Variable serve : provider.
Variable url : string.
Variable headers : list (string * string).
Variable params : list (string * json).

(** The request one round of the loop sends for [next_url]. *)
Definition page_request (next_url : json) : request :=
  if eq_str next_url url
  then {| req_url := next_url; req_headers := headers;
          req_params := Some params; req_timeout := 30 |}
  else {| req_url := next_url; req_headers := headers;
          req_params := None; req_timeout := 30 |}.

(** One round after the request: status check, decoding, [results], [next]. *)
Definition read_page (r : response) : result (list json * json) :=
  match r with
  | NoResponse => Raise ConnectionError
  | Response status body =>
      _ <- raise_for_status status ;;
      data <- match body with Some d => Return d | None => Raise JSONDecodeError end ;;
      batch <- py_get data "results" (JArr []) ;;
      items <- py_iter batch ;;
      next_url <- py_get data "next" JNull ;;
      Return (items, next_url)
  end.

(** [while next_url: ...]; [None] when the fuel is spent before the loop ends.
    [sent] is every request issued so far, oldest first. *)
Fixpoint fetch_pages (fuel : nat) (sent : list request) (events : list json)
         (next_url : json) : option (list request * result (list json)) :=
  if truthy next_url then
    match fuel with
    | O => None
    | S fuel' =>
        let sent' := sent ++ [page_request next_url] in
        match read_page (serve sent') with
        | Raise e => Some (sent', Raise e)
        | Return (items, next_url') => fetch_pages fuel' sent' (events ++ items) next_url'
        end
    end
  else Some (sent, Return events).
End Fetch.

(** The three locals of [fetch_events]: [url], [headers], [params]. *)
Definition events_url (cfg : posthog_config) : string :=
  (base_url cfg ++ "/api/projects/" ++ project_id cfg ++ "/events/")%string.

Definition request_headers (cfg : posthog_config) : list (string * string) :=
  [("Authorization", ("Bearer " ++ api_key cfg)%string);
   ("Content-Type", "application/json")].

Definition query_params (after before event_name : string) (limit : Z)
  : list (string * json) :=
  [("after", JStr after); ("before", JStr before);
   ("event", JStr event_name); ("limit", JInt limit)].

(** The connection-pooling handle ([session], [own_session]) changes neither
    the requests nor the list returned, and is left out. *)
Definition fetch_events (env : environ) (serve : provider) (fuel : nat)
           (after before event_name : string) (limit : Z)
  : option (list request * result (list json)) :=
  match _get_posthog_config env with
  | Raise e => Some ([], Raise e)
  | Return cfg =>
      let url := events_url cfg in
      fetch_pages serve url (request_headers cfg)
        (query_params after before event_name limit) fuel [] [] (JStr url)
  end.

(* ------------------------------------------------------------------ *)
(** ** The table [click_events] ([sqlalchemy_setup.py], lines 99-130) *)

(** The types of the columns that hold a value read from the event:
    [String(n)], a VARCHAR of at most [n] characters, and [Integer], a
    signed 32-bit INT.  ([timestamp] is a [DateTime] and always holds a
    [datetime]; [raw_data] is a [Text], which holds 65,535 bytes with the
    MySQL engine of the source, and [json.dumps] prints one byte per
    character.) *)
Inductive sqltype : Type :=
| String_ (n : N)
| Integer.

Definition text_limit : N := 65535.

(** For a value of the Python type the column declares ([str] for
    [String], [int] for [Integer]): whether it is within the column's
    bound.  [None] for a value of any other type. *)
Definition within (ty : sqltype) (v : json) : option bool :=
  match ty, v with
  | String_ n, JStr s => Some (N.leb (N.of_nat (String.length s)) n)
  | Integer, JInt z => Some ((-2147483648 <=? z)%Z && (z <=? 2147483647)%Z)
  | _, _ => None
  end.


(** What the engine -- SQLAlchemy, the driver and the server together --
    makes of a Python value whose type is not the one the column declares
    (an [int], a [list] or a [dict] where a [str] is declared, a [str]
    where an [int] is): the value of the declared type that it stores and
    compares, or the exception it raises.  The source says nothing about
    it, so the engine is a parameter of everything that reaches the
    database.  The first argument is the column's name. *)
Definition Engine : Type := string -> sqltype -> json -> result json.

(** Binding a Python value to a column of an INSERT: null is refused by a
    [nullable=False] column, a value of the declared type is checked
    against the bound, any other value is what the engine makes of it,
    checked against the bound in turn. *)
Definition bind_value (engine : Engine) (column : string) (ty : sqltype)
           (nullable : bool) (v : json) : result json :=
  match v with
  | JNull => if nullable then Return JNull else Raise IntegrityError
  | _ =>
      v' <- match within ty v with
            | Some _ => Return v
            | None => engine column ty v
            end ;;
      match within ty v' with
      | Some true => Return v'
      | _ => Raise DataError
      end
  end.

(** The value [Session.get] compares with the column [id]: a text is
    compared as it is, whatever its length, and [None] finds no row; any
    other value is what the engine makes of it. *)
Definition lookup_key (engine : Engine) (k : json) : result json :=
  match k with
  | JNull | JStr _ => Return k
  | _ => engine "id" (String_ 50) k
  end.

(** [f] over a list, up to the first exception. *)
Fixpoint map_result {A B : Type} (f : A -> result B) (l : list A) : result (list B) :=
  match l with
  | [] => Return []
  | x :: l' =>
      y <- f x ;;
      ys <- map_result f l' ;;
      Return (y :: ys)
  end.

(** Equality of two values of the column [id]: the same text, character by
    character (a binary collation). *)
Fixpoint json_eqb (a b : json) : bool :=
  match a, b with
  | JNull, JNull => true
  | JBool x, JBool y => Bool.eqb x y
  | JInt x, JInt y => Z.eqb x y
  | JFloat x, JFloat y => String.eqb x y
  | JStr x, JStr y => String.eqb x y
  | JArr xs, JArr ys =>
      (fix items (xs ys : list json) {struct xs} : bool :=
         match xs, ys with
         | [], [] => true
         | x :: xs', y :: ys' => json_eqb x y && items xs' ys'
         | _, _ => false
         end) xs ys
  | JObj xs, JObj ys =>
      (fix fields (xs ys : list (string * json)) {struct xs} : bool :=
         match xs, ys with
         | [], [] => true
         | (k, x) :: xs', (k', y) :: ys' => String.eqb k k' && json_eqb x y && fields xs' ys'
         | _, _ => false
         end) xs ys
  | _, _ => false
  end.

Section Database.
Context {datetime : Type}.
Variable engine : Engine.

(** The nullable columns, in the order of the class body: name, type, and
    the attribute of the instance that is bound to it. *)
Record Column : Type := {
  col_name : string;
  col_type : sqltype;
  col_value : ClickEvent datetime -> json
}.

Definition optional_schema : list Column :=
  [ {| col_name := "current_url";      col_type := String_ 2000; col_value := current_url |};
    {| col_name := "pathname";         col_type := String_ 1000; col_value := pathname |};
    {| col_name := "event_type";       col_type := String_ 100;  col_value := event_type |};
    {| col_name := "element_text";     col_type := String_ 500;  col_value := element_text |};
    {| col_name := "element_tag";      col_type := String_ 100;  col_value := element_tag |};
    {| col_name := "element_href";     col_type := String_ 2000; col_value := element_href |};
    {| col_name := "browser";          col_type := String_ 100;  col_value := browser |};
    {| col_name := "os";               col_type := String_ 100;  col_value := os |};
    {| col_name := "country_code";     col_type := String_ 10;   col_value := country_code |};
    {| col_name := "referrer";         col_type := String_ 2000; col_value := referrer |};
    {| col_name := "referring_domain"; col_type := String_ 255;  col_value := referring_domain |};
    {| col_name := "city_name";        col_type := String_ 100;  col_value := city_name |};
    {| col_name := "region_name";      col_type := String_ 100;  col_value := region_name |};
    {| col_name := "country_name";     col_type := String_ 100;  col_value := country_name |};
    {| col_name := "postal_code";      col_type := String_ 50;   col_value := postal_code |};
    {| col_name := "latitude";         col_type := String_ 20;   col_value := latitude |};
    {| col_name := "longitude";        col_type := String_ 20;   col_value := longitude |};
    {| col_name := "device_type";      col_type := String_ 50;   col_value := device_type |};
    {| col_name := "os_version";       col_type := String_ 100;  col_value := os_version |};
    {| col_name := "browser_version";  col_type := String_ 50;   col_value := browser_version |};
    {| col_name := "viewport_width";   col_type := Integer;      col_value := viewport_width |};
    {| col_name := "viewport_height";  col_type := Integer;      col_value := viewport_height |};
    {| col_name := "session_id";       col_type := String_ 100;  col_value := session_id |} ].

(** The row with the key [i], the [distinct_id] [d] and the nullable
    columns [cols], in the order of [optional_schema]. *)
Definition stored_row (r : ClickEvent datetime) (i d : json) (cols : list json)
  : ClickEvent datetime :=
  match cols with
  | [c1; c2; c3; c4; c5; c6; c7; c8; c9; c10; c11; c12; c13; c14; c15; c16; c17; c18;
     c19; c20; c21; c22; c23] =>
      Build_ClickEvent i d (timestamp r) c1 c2 c3 c4 c5 c6 c7 c8 c9 c10 c11 c12 c13 c14
        c15 c16 c17 c18 c19 c20 c21 c22 c23 (raw_data r)
  | _ => r
  end.

(** The row that an INSERT of the instance [r] stores: every attribute
    bound to its column; [id] is the primary key (never null),
    [distinct_id] and [raw_data] are [nullable=False]. *)
Definition bind_row (r : ClickEvent datetime) : result (ClickEvent datetime) :=
  i <- bind_value engine "id" (String_ 50) false (id r) ;;
  d <- bind_value engine "distinct_id" (String_ 255) false (distinct_id r) ;;
  cols <- map_result (fun c => bind_value engine (col_name c) (col_type c) true (col_value c r))
            optional_schema ;;
  _ <- (if N.leb (N.of_nat (String.length (raw_data r))) text_limit
        then Return tt else Raise DataError) ;;
  Return (stored_row r i d cols).



(** The server side: the committed rows of [click_events], and for each
    statement the server will be sent, whether it fails it (lost
    connection, deadlock, a racing writer); past the end of the list no
    statement fails. *)
Record Database : Type := {
  rows : list (ClickEvent datetime);
  failures : list bool
}.

(** A [Session] of SQLAlchemy over that server. *)
Record Session : Type := {
  table : list (ClickEvent datetime);          (* committed rows *)
  failing : list bool;       (* the server's coming failures *)
  begun : bool;              (* a statement was sent: a transaction is open on the server *)
  txn : list (ClickEvent datetime);            (* rows INSERTed by the open transaction *)
  identity_map : list (ClickEvent datetime);   (* persistent instances held by the session *)
  pending : list (ClickEvent datetime)         (* [session.new]: added and not yet flushed *)
}.

(** State-and-exception monad of session operations: an operation that
    raises still leaves a session state behind. *)
Definition db (A : Type) : Type := Session -> result A * Session.

Definition db_ret {A : Type} (a : A) : db A := fun s => (Return a, s).

Definition db_bind {A B : Type} (m : db A) (k : A -> db B) : db B :=
  fun s =>
    match m s with
    | (Return a, s') => k a s'
    | (Raise e, s') => (Raise e, s')
    end.

Definition db_lift {A : Type} (r : result A) : db A := fun s => (r, s).

(** The first row whose [id] is the value [k]. *)
Fixpoint find_pk (l : list (ClickEvent datetime)) (k : json) : option (ClickEvent datetime) :=
  match l with
  | [] => None
  | r :: l' => if json_eqb (id r) k then Some r else find_pk l' k
  end.

(** What this session's connection sees: committed rows and its own
    uncommitted ones. *)
Definition visible (s : Session) : list (ClickEvent datetime) := table s ++ txn s.

(** The session after it has sent one statement: the transaction is open. *)
Definition sent_one (s : Session) : Session :=
  {| table := table s; failing := tl (failing s); begun := true; txn := txn s;
     identity_map := identity_map s; pending := pending s |}.

(** Sending one statement: the server fails it or not. *)
Definition statement : db unit :=
  fun s =>
    if hd false (failing s) then (Raise OperationalError, sent_one s)
    else (Return tt, sent_one s).

(** INSERT of one pending instance, which becomes persistent: the values
    are bound, and the primary key must be new. *)
Definition insert (r : ClickEvent datetime) : db unit :=
  db_bind statement (fun _ s =>
    match bind_row r with
    | Raise e => (Raise e, s)
    | Return r' =>
        match find_pk (visible s) (id r') with
        | Some _ => (Raise IntegrityError, s)
        | None =>
            (Return tt,
             {| table := table s; failing := failing s; begun := begun s;
                txn := txn s ++ [r']; identity_map := identity_map s ++ [r'];
                pending := pending s |})
        end
    end).

Definition set_pending (l : list (ClickEvent datetime)) : db unit :=
  fun s => (Return tt,
            {| table := table s; failing := failing s; begun := begun s; txn := txn s;
               identity_map := identity_map s; pending := l |}).

(** [Session.flush]: the pending instances are inserted in the order they
    were added. *)
Fixpoint flush_rows (l : list (ClickEvent datetime)) : db unit :=
  match l with
  | [] => db_ret tt
  | r :: rest =>
      db_bind (insert r) (fun _ => db_bind (set_pending rest) (fun _ => flush_rows rest))
  end.

Definition flush : db unit := fun s => flush_rows (pending s) s.

(** SELECT by primary key; a row that is found becomes a persistent instance. *)
Definition select_pk (k : json) : db (option (ClickEvent datetime)) :=
  db_bind statement (fun _ s =>
    match find_pk (visible s) k with
    | Some r =>
        (Return (Some r),
         {| table := table s; failing := failing s; begun := begun s; txn := txn s;
            identity_map := identity_map s ++ [r]; pending := pending s |})
    | None => (Return None, s)
    end).

(** [Session.get(ClickEvent, ident)]: the identity map first; else
    autoflush ([sessionmaker(bind=engine)] leaves [autoflush=True]) and a
    SELECT. *)
Definition get (ident : json) : db (option (ClickEvent datetime)) :=
  fun s =>
    match lookup_key engine ident with
    | Raise e => (Raise e, s)
    | Return k =>
        match find_pk (identity_map s) k with
        | Some r => (Return (Some r), s)
        | None => db_bind flush (fun _ => select_pk k) s
        end
    end.

(** [Session.add] *)
Definition add (r : ClickEvent datetime) : db unit :=
  fun s => (Return tt,
            {| table := table s; failing := failing s; begun := begun s; txn := txn s;
               identity_map := identity_map s; pending := pending s ++ [r] |}).

(** The end of a transaction that commits: its rows are committed rows. *)
Definition end_transaction : db unit :=
  fun s => (Return tt,
            {| table := table s ++ txn s; failing := failing s; begun := false;
               txn := []; identity_map := identity_map s; pending := pending s |}).

(** [Session.commit]: flush, then COMMIT.  A session that has sent no
    statement has no transaction on the server, and sends no COMMIT
    ([txn] is empty then). *)
Definition commit : db unit :=
  db_bind flush (fun _ s =>
    if begun s then db_bind statement (fun _ => end_transaction) s
    else end_transaction s).

(** [Session.rollback]: the transaction's rows are gone, and so is
    everything the session held. *)
Definition rollback (s : Session) : Session :=
  {| table := table s; failing := failing s; begun := false; txn := [];
     identity_map := []; pending := [] |}.

(** [SessionLocal()] *)
Definition SessionLocal (d : Database) : Session :=
  {| table := rows d; failing := failures d; begun := false; txn := [];
     identity_map := []; pending := [] |}.

(** [Session.close]: the connection goes back to the pool; what stays is
    the server, with its committed rows. *)
Definition close (s : Session) : Database :=
  {| rows := table s; failures := failing s |}.
End Database.
Arguments Database datetime : clear implicits.
Arguments Session datetime : clear implicits.
Arguments Column datetime : clear implicits.

Notation "x <~ m ;; k" := (db_bind m (fun x => k))
  (at level 61, m at next level, right associativity).

(* ------------------------------------------------------------------ *)
(** ** Database insertion ([utils.py], lines 236-263) *)

Section Store.
Context {datetime : Type}.
Variable engine : Engine.
Variable fromisoformat : string -> option datetime.
(** [utcnow i] is what [datetime.utcnow()] answers while the event at
    position [i] of the batch is transformed. *)
Variable utcnow : nat -> datetime.

(** The body of [for evt in events], from position [i] on. *)
Fixpoint store_loop (i : nat) (events : list json) (inserted_count : Z)
  : db (datetime := datetime) Z :=
  match events with
  | [] => db_ret inserted_count
  | evt :: rest =>
      model <~ db_lift (transform_event fromisoformat (utcnow i) evt) ;;
      exists_ <~ get engine (id model) ;;
      match exists_ with
      | Some _ => store_loop (S i) rest inserted_count
      | None =>
          _ <~ add model ;;
          store_loop (S i) rest (inserted_count + 1)%Z
      end
  end.

(** The [try] block from position [i] of the batch on: the rest of the
    loop, then [db.commit()]. *)
Definition loop_commit (i : nat) (events : list json) (inserted_count : Z)
  : db (datetime := datetime) Z :=
  n <~ store_loop i events inserted_count ;; _ <~ commit engine ;; db_ret n.

(** [try: ...  except Exception: db.rollback(); raise]: the value or the
    exception, and the session that [finally] closes. *)
Definition store_session (events : list json) (s : Session datetime)
  : result Z * Session datetime :=
  match loop_commit 0 events 0%Z s with
  | (Return n, s') => (Return n, s')
  | (Raise e, s') => (Raise e, rollback s')
  end.

(** [db = SessionLocal()], the [try] statement with its [finally:
    db.close()], then [return inserted_count]. *)
Definition store_events (events : list json) (d : Database datetime)
  : result Z * Database datetime :=
  let (r, s) := store_session events (SessionLocal d) in (r, close s).
End Store.

(* ------------------------------------------------------------------ *)
(** ** High-level sync ([utils.py], lines 273-305) and the entry point ([main.py]) *)

(** What a run did to the outside world, in order. *)
Inductive activity : Type :=
| DbCreateAll               (* [Base.metadata.create_all(engine)] at import *)
| HttpGet (r : request)     (* one [session.get] of [fetch_events] *)
| DbSession.                (* the session of [store_events] *)

(** The parsed command line: [args.start], [args.end], [args.event_name],
    [args.limit]. *)
Record Namespace : Type := {
  start : option string;
  end_ : option string;
  event_name : string;
  limit : Z
}.

Definition database_config_message : string :=
  "Database credentials are not fully specified in environment variables. Please set DB_USER, DB_PASS, DB_HOST, DB_PORT, and DB_NAME.".

(** [_db_user], [_db_pass], [_db_host], [_db_port], [_db_name] *)
Definition database_credentials (env : environ) : list (option string) :=
  [env "DB_USER"; env "DB_PASS"; env "DB_HOST"; env "DB_PORT"; env "DB_NAME"].

(** The URL text handed to [create_engine]. *)
Definition engine_url (env : environ) : string :=
  ("mysql+pymysql://" ++ text (env "DB_USER") ++ ":" ++ text (env "DB_PASS") ++ "@"
     ++ text (env "DB_HOST") ++ ":" ++ text (env "DB_PORT") ++ "/"
     ++ text (env "DB_NAME"))%string.

Section Sync.
Context {datetime : Type}.
Variable engine : Engine.
Variable fromisoformat : string -> option datetime.
(** [dt.replace(tzinfo=None).isoformat()] *)
Variable isoformat : datetime -> string.
(** [dt - timedelta(days=1)]; [None] when it raises [OverflowError]. *)
Variable minus_one_day : datetime -> option datetime.
(** [create_engine] accepts the URL text (it only parses it). *)
Variable make_url : string -> bool.
Variable env : environ.
Variable serve : provider.
Variable utcnow : nat -> datetime.

Definition to_iso (dt : datetime) : string := (isoformat dt ++ "Z")%string.

(** What the call did to the outside world, the value returned or the
    exception raised, and the database afterwards; [None] when the fetch
    loop outlives the fuel. *)
Definition sync_posthog_events (fuel : nat) (start end_ : datetime)
           (event_name : string) (limit : Z) (d : Database datetime)
  : option (list activity * result Z * Database datetime) :=
  match fetch_events env serve fuel (to_iso start) (to_iso end_) event_name limit with
  | None => None
  | Some (sent, Raise e) => Some (map HttpGet sent, Raise e, d)
  | Some (sent, Return events) =>
      let (r, d') := store_events engine fromisoformat utcnow events d in
      Some (map HttpGet sent ++ [DbSession], r, d')
  end.

(** Importing [sqlalchemy_setup]: the credential check, [create_engine],
    and [create_all], which is the first statement the server is sent. *)
Definition sqlalchemy_setup (d : Database datetime)
  : list activity * result unit * Database datetime :=
  if negb (forallb is_set (database_credentials env))
  then ([], Raise (EnvironmentError database_config_message), d)
  else
    if negb (make_url (engine_url env)) then ([], Raise ValueError, d)
    else
      match statement (SessionLocal d) with
      | (Return _, s) => ([DbCreateAll], Return tt, close s)
      | (Raise e, s) => ([DbCreateAll], Raise e, close s)
      end.

(** [iso_to_datetime] *)
Definition iso_to_datetime (value : string) : result datetime :=
  match fromisoformat value with
  | Some d => Return d
  | None => Raise ValueError
  end.

(** The window of [main]: [end] defaults to [now], [start] to a day before
    [end]. *)
Definition window (now : datetime) (args : Namespace) : result (datetime * datetime) :=
  end_dt <- (if is_set (end_ args)
             then iso_to_datetime (text (end_ args))
             else Return now) ;;
  start_dt <- (if is_set (start args)
               then iso_to_datetime (text (start args))
               else match minus_one_day end_dt with
                    | Some d => Return d
                    | None => Raise OverflowError
                    end) ;;
  Return (start_dt, end_dt).

(** [python main.py]: the imports run first, then [main()].  [now] is what
    [datetime.now()] answers. *)
Definition main (fuel : nat) (now : datetime) (args : Namespace) (d : Database datetime)
  : option (list activity * result unit * Database datetime) :=
  match sqlalchemy_setup d with
  | (acts, Raise e, d1) => Some (acts, Raise e, d1)
  | (acts, Return _, d1) =>
      match window now args with
      | Raise e => Some (acts, Raise e, d1)
      | Return (start_dt, end_dt) =>
          match sync_posthog_events fuel start_dt end_dt (event_name args) (limit args) d1 with
          | None => None
          | Some (acts', Raise e, d2) => Some (acts ++ acts', Raise e, d2)
          | Some (acts', Return inserted, d2) => Some (acts ++ acts', Return tt, d2)
          end
      end
  end.
End Sync.

(* ------------------------------------------------------------------ *)
(** ** Vocabulary of the properties *)





(** The columns read from [properties]: all optional ones but the two that
    only the first element fills. *)
Definition property_columns {datetime : Type} (r : ClickEvent datetime) : list json :=
  [current_url r; pathname r; event_type r; browser r; os r; country_code r;
   referrer r; referring_domain r; city_name r; region_name r; country_name r;
   postal_code r; latitude r; longitude r; device_type r; os_version r;
   browser_version r; viewport_width r; viewport_height r; session_id r].

(** A successful response that carries the page [items] and the cursor [next]
    ([JNull] when the field is absent). *)
Definition is_page (items : list json) (next : json) (r : response) : Prop :=
  exists status d,
    r = Response status (Some (JObj d)) /\
    raise_for_status status = Return tt /\
    get_or d "results" (JArr []) = JArr items /\
    get_or d "next" JNull = next.

(** The three values [transform_event] computes before it builds the row. *)
Section TransformParts.
Context {datetime : Type}.
Variable fromisoformat : string -> option datetime.

Definition timestamp_of (utcnow : datetime) (fields : list (string * json)) : result datetime :=
  let ts_str := get_or fields "timestamp" JNull in
  if truthy ts_str then _parse_iso_datetime fromisoformat ts_str else Return utcnow.

Definition props_of (fields : list (string * json)) : json :=
  py_or (get_or fields "properties" (JObj [])) (JObj []).

Definition first_el_of (fields : list (string * json)) : result json :=
  let elements := py_or (get_or fields "elements" (JArr [])) (JArr []) in
  if truthy elements then py_first elements else Return (JObj []).

(** The row built from an event whose three parts are [ts], a dict [p] and
    a dict [e]. *)
Definition row_of (fields : list (string * json)) (ts : datetime)
           (p e : list (string * json)) : ClickEvent datetime :=
  {| id := get_or fields "id" (JStr "");
     distinct_id := get_or fields "distinct_id" (JStr "");
     timestamp := ts;
     current_url := get_or p "$current_url" JNull;
     pathname := get_or p "$pathname" JNull;
     event_type := get_or p "$event_type" JNull;
     element_text := py_or (get_or p "$el_text" JNull) (get_or e "text" JNull);
     element_tag := get_or e "tag_name" JNull;
     element_href := get_or e "href" JNull;
     browser := get_or p "$browser" JNull;
     os := get_or p "$os" JNull;
     country_code := get_or p "$geoip_country_code" JNull;
     referrer := get_or p "$referrer" JNull;
     referring_domain := get_or p "$referring_domain" JNull;
     city_name := get_or p "$geoip_city_name" JNull;
     region_name := get_or p "$geoip_subdivision_1_name" JNull;
     country_name := get_or p "$geoip_country_name" JNull;
     postal_code := get_or p "$geoip_postal_code" JNull;
     latitude := get_or p "$geoip_latitude" JNull;
     longitude := get_or p "$geoip_longitude" JNull;
     device_type := get_or p "$device_type" JNull;
     os_version := get_or p "$os_version" JNull;
     browser_version := get_or p "$browser_version" JNull;
     viewport_width := get_or p "$viewport_width" JNull;
     viewport_height := get_or p "$viewport_height" JNull;
     session_id := get_or p "$session_id" JNull;
     raw_data := json_dumps (JObj fields) |}.
End TransformParts.

(** Vocabulary of the store: the primary keys of a list of rows, the rows
    of a batch that are new, and the batch transformed. *)
Section StoreVocabulary.
Context {datetime : Type}.
Variable engine : Engine.
Variable fromisoformat : string -> option datetime.
Variable utcnow : nat -> datetime.

Definition ids (l : list (ClickEvent datetime)) : list json := map id l.


(** The same for any instances, as the engine has it: the rows that a
    batch of instances adds to the rows [seen].  An instance whose key is
    found is skipped; any other is bound and stored; an exception of a
    lookup or of a binding ends it. *)
Fixpoint new_rows (seen models : list (ClickEvent datetime))
  : result (list (ClickEvent datetime)) :=
  match models with
  | [] => Return []
  | m :: rest =>
      k <- lookup_key engine (id m) ;;
      match find_pk seen k with
      | Some _ => new_rows seen rest
      | None =>
          r <- bind_row engine m ;;
          more <- new_rows (seen ++ [r]) rest ;;
          Return (r :: more)
      end
  end.

(** [transform_event] over a batch, the event at position [i] first. *)
Fixpoint transform_from (i : nat) (events : list json)
  : result (list (ClickEvent datetime)) :=
  match events with
  | [] => Return []
  | evt :: rest =>
      m <- transform_event fromisoformat (utcnow i) evt ;;
      ms <- transform_from (S i) rest ;;
      Return (m :: ms)
  end.

(** The keys of the rows [l] are new over the rows [v], one after the other. *)
Fixpoint insertable (v l : list (ClickEvent datetime)) : Prop :=
  match l with
  | [] => True
  | r :: l' => find_pk v (id r) = None /\ insertable (v ++ [r]) l'
  end.

(** Every persistent instance of the session is a row its connection sees. *)
Definition identity_map_sound (s : Session datetime) : Prop :=
  incl (ids (identity_map s)) (ids (visible s)).
End StoreVocabulary.
Arguments ids {datetime} l : simpl never.

(** [n] times the character [c]. *)
Fixpoint repeat_char (c : ascii) (n : nat) : string :=
  match n with
  | O => EmptyString
  | S n' => String c (repeat_char c n')
  end.

(** Vocabulary of the fetch loop: pages served one after the other. *)
Section FetchVocabulary.
Variable serve : provider.
Variable url : string.
Variable headers : list (string * string).
Variable params : list (string * json).

(** The requests the loop sends when it starts at the cursor [next] and is
    served the pages [ps], each a list of items with its cursor. *)
Fixpoint asked (next : json) (ps : list (list json * json)) : list request :=
  match ps with
  | [] => []
  | (_, c) :: ps' => page_request url headers params next :: asked c ps'
  end.

(** The cursor the loop holds after the pages [ps]. *)
Fixpoint last_cursor (next : json) (ps : list (list json * json)) : json :=
  match ps with
  | [] => next
  | (_, c) :: ps' => last_cursor c ps'
  end.

(** After the requests [sent] and at the cursor [next], the provider serves
    the pages [ps] in turn, every cursor followed being truthy. *)
Fixpoint served (sent : list request) (next : json) (ps : list (list json * json)) : Prop :=
  match ps with
  | [] => True
  | (items, c) :: ps' =>
      truthy next = true /\
      is_page items c (serve (sent ++ [page_request url headers params next])) /\
      served (sent ++ [page_request url headers params next]) c ps'
  end.
End FetchVocabulary.

(* ------------------------------------------------------------------ *)
(** ** Concrete environments and providers for the examples *)

(** An environment given by its bindings. *)
Fixpoint env_of (l : list (string * string)) : environ :=
  fun name =>
    match l with
    | [] => None
    | (k, v) :: l' => if String.eqb k name then Some v else env_of l' name
    end.

(** A provider that plays a script: the n-th request gets the n-th response. *)
Definition scripted (script : list response) : provider :=
  fun sent => nth (List.length sent - 1) script NoResponse.

Definition posthog_env : list (string * string) :=
  [("POSTHOG_API_KEY", "phx_key"); ("POSTHOG_PROJECT_ID", "1")].

Definition database_env : list (string * string) :=
  [("DB_USER", "sync"); ("DB_PASS", "secret"); ("DB_HOST", "localhost");
   ("DB_PORT", "3306"); ("DB_NAME", "analytics")].

Definition example_fields : list (string * json) :=
  [("id", JStr "abc"); ("distinct_id", JStr "u1");
   ("timestamp", JStr "2025-09-15T10:00:00Z");
   ("properties", JObj [("$current_url", JStr "https://x/y")]);
   ("elements", JArr [JObj [("tag_name", JStr "button"); ("href", JNull);
                            ("text", JStr "Click")]])].

Definition ev_example : json := JObj example_fields.

Definition click (event_id : string) : json :=
  JObj [("id", JStr event_id); ("distinct_id", JStr "u1")].

Definition json_page (items : list json) (next : json) : response :=
  Response 200 (Some (JObj [("results", JArr items); ("next", next)])).

Definition first_url : string := "https://us.posthog.com/api/projects/1/events/".

Definition three_pages : list response :=
  [json_page [click "a"] (JStr "https://us.posthog.com/api/projects/1/events/?offset=1");
   json_page [click "b"] (JStr "https://us.posthog.com/api/projects/1/events/?offset=2");
   json_page [click "c"] JNull].

(** Dates as their ISO text, a parser that accepts every text, a clock that
    stands still, and the row stored for [click event_id]. *)
Definition accept_all : string -> option string := fun s => Some s.


Definition frozen_clock : nat -> string := fun _ => "2025-09-16T08:00:00".

Definition stored (event_id : string) : ClickEvent string :=
  row_of [("id", JStr event_id); ("distinct_id", JStr "u1")] "2025-09-16T08:00:00" [] [].

(** A provider whose first cursor is the bare endpoint URL. *)
Definition cursor_is_endpoint : list response :=
  [json_page [click "a"] (JStr first_url);
   json_page [click "b"] JNull].

(** A provider that answers every request with one event and a cursor. *)
Definition endless : provider :=
  fun _ => json_page [click "a"] (JStr "https://us.posthog.com/api/projects/1/events/?offset=1").

(** A provider whose second response is a server error. *)
Definition second_page_fails : list response :=
  [json_page [click "a"] (JStr "https://us.posthog.com/api/projects/1/events/?offset=1");
   Response 503 None].

(** An engine that refuses every value that is not of the declared type,
    and one that stores an [int] bound to a [String] column as its decimal
    text and takes no [list] or [dict] for an identity. *)
Definition strict : Engine := fun _ _ _ => Raise DataError.

Definition text_affinity : Engine :=
  fun column ty v =>
    match ty, v with
    | String_ _, JInt z => Return (JStr (encode_int z))
    | _, (JArr _ | JObj _) =>
        if String.eqb column "id" then Raise InvalidRequestError else Raise DataError
    | _, _ => Raise DataError
    end.


(** The whole configuration, a day as a text, and the default command line. *)
Definition full_env : list (string * string) := posthog_env ++ database_env.

Definition day_before : string -> option string := fun dt => Some ("day before " ++ dt)%string.

Definition no_arguments : Namespace :=
  {| start := None; end_ := None; event_name := "$autocapture"; limit := 100 |}.

(* ================================================================== *)
(** * Properties *)

(* ------------------------------------------------------------------ *)
(** ** [transform_event] *)

Section TransformFacts.
Context {datetime : Type}.
Variable fromisoformat : string -> option datetime.

Lemma transform_event_object (utcnow : datetime) fields ts p e :
  timestamp_of fromisoformat utcnow fields = Return ts ->
  props_of fields = JObj p ->
  first_el_of fields = Return (JObj e) ->
  transform_event fromisoformat utcnow (JObj fields) = Return (row_of fields ts p e).
Proof.
  unfold timestamp_of, props_of, first_el_of, transform_event.
  cbn [py_get bind]. intros Hts Hp He.
  rewrite Hts. cbn [bind]. rewrite Hp, He. cbn [py_get bind].
  unfold row_of, py_or. destruct (truthy (get_or p "$el_text" JNull)); reflexivity.
Qed.

Lemma transform_event_inv (utcnow : datetime) ev r :
  transform_event fromisoformat utcnow ev = Return r ->
  exists fields ts p e,
    ev = JObj fields /\
    timestamp_of fromisoformat utcnow fields = Return ts /\
    props_of fields = JObj p /\
    first_el_of fields = Return (JObj e) /\
    r = row_of fields ts p e.
Proof.
  destruct ev as [| | | | | |fields]; try discriminate.
  intros H. exists fields.
  destruct (timestamp_of fromisoformat utcnow fields) as [ts|x] eqn:Hts.
  2:{ unfold timestamp_of in Hts. unfold transform_event in H. cbn [py_get bind] in H.
      rewrite Hts in H. discriminate. }
  destruct (first_el_of fields) as [fe|x] eqn:He.
  2:{ unfold timestamp_of in Hts. unfold first_el_of in He.
      unfold transform_event in H. cbn [py_get bind] in H.
      rewrite Hts in H. cbn [bind] in H. rewrite He in H. discriminate. }
  destruct (props_of fields) as [| | | | | |p] eqn:Hp;
    try (unfold timestamp_of in Hts; unfold first_el_of in He; unfold props_of in Hp;
         unfold transform_event in H; cbn [py_get bind] in H;
         rewrite Hts in H; cbn [bind] in H; rewrite He, Hp in H; discriminate).
  destruct fe as [| | | | | |e];
    try (unfold timestamp_of in Hts; unfold first_el_of in He; unfold props_of in Hp;
         unfold transform_event in H; cbn [py_get bind] in H;
         rewrite Hts in H; cbn [bind] in H; rewrite He, Hp in H; cbn [py_get bind] in H;
         destruct (truthy (get_or p "$el_text" JNull)); discriminate).
  exists ts, p, e. repeat split; trivial.
  rewrite (transform_event_object utcnow fields ts p e Hts Hp He) in H.
  now inversion H.
Qed.

Lemma transform_event_not_object (utcnow : datetime) ev :
  (forall fields, ev <> JObj fields) ->
  transform_event fromisoformat utcnow ev = Raise AttributeError.
Proof.
  destruct ev; intros H; try reflexivity. now destruct (H fields).
Qed.

(** C4, as amended.  When an event carries a [properties] mapping and an
    [elements] list whose first element is a descriptor, the record's
    [element_text] is the top-level [$el_text] when that value is truthy
    (a non-empty text), and the first element's [text] when the top-level
    value is absent, null or empty. *)
Theorem element_text_precedence (utcnow : datetime) fields p e rest r :
  dict_get fields "properties" = Some (JObj p) ->
  dict_get fields "elements" = Some (JArr (JObj e :: rest)) ->
  transform_event fromisoformat utcnow (JObj fields) = Return r ->
  element_text r =
    if truthy (get_or p "$el_text" JNull)
    then get_or p "$el_text" JNull
    else get_or e "text" JNull.
Proof.
  intros Hp He H.
  apply transform_event_inv in H.
  destruct H as (fields' & ts & p' & e' & Hev & _ & Hp' & He' & ->).
  injection Hev as <-.
  assert (p' = p) as ->.
  { unfold props_of, get_or, py_or in Hp'. rewrite Hp in Hp'.
    destruct (truthy (JObj p)) eqn:T; [now injection Hp'|].
    destruct p; [now injection Hp'|discriminate]. }
  assert (e' = e) as ->.
  { unfold first_el_of, get_or, py_or in He'. rewrite He in He'.
    cbn in He'. now injection He'. }
  reflexivity.
Qed.

(** C10, as amended.  [transform_event] returns a record for every
    JSON-object event, with or without an [id], whose [timestamp] is absent
    or falsy or a text that [fromisoformat] accepts once one trailing [Z]
    is stripped, whose [properties] is absent, falsy or a mapping, and
    whose [elements] is absent, falsy or a list that starts with a
    descriptor.  An absent [id] or [distinct_id] gives the empty text, a
    null or absent [properties] leaves every column read from it null, and
    a null or absent [elements] leaves the tag and the link null. *)
Theorem transform_event_total (utcnow : datetime) fields :
  (truthy (get_or fields "timestamp" JNull) = false \/
   exists s d, dict_get fields "timestamp" = Some (JStr s) /\
               fromisoformat (if endswith s "Z" then drop_last s else s) = Some d) ->
  (truthy (get_or fields "properties" JNull) = false \/
   exists p, dict_get fields "properties" = Some (JObj p)) ->
  (truthy (get_or fields "elements" JNull) = false \/
   exists e rest, dict_get fields "elements" = Some (JArr (JObj e :: rest))) ->
  exists r,
    transform_event fromisoformat utcnow (JObj fields) = Return r /\
    (dict_get fields "id" = None -> id r = JStr "") /\
    (dict_get fields "distinct_id" = None -> distinct_id r = JStr "") /\
    (get_or fields "properties" JNull = JNull ->
     Forall (eq JNull) (property_columns r)) /\
    (get_or fields "elements" JNull = JNull ->
     element_tag r = JNull /\ element_href r = JNull).
Proof.
  intros Hts Hp He.
  assert (exists ts, timestamp_of fromisoformat utcnow fields = Return ts) as [ts Ets].
  { unfold timestamp_of. destruct Hts as [F|(s & d & E & P)].
    - rewrite F. now exists utcnow.
    - unfold get_or in *. rewrite E.
      destruct (truthy (JStr s)); [|now exists utcnow].
      exists d. unfold _parse_iso_datetime. cbn [try_formats]. now rewrite P. }
  assert (exists p, props_of fields = JObj p /\
                    (get_or fields "properties" JNull = JNull -> p = [])) as (p & Ep & Np).
  { unfold props_of, py_or, get_or in *. destruct Hp as [F|(p & E)].
    - destruct (dict_get fields "properties") as [v|].
      + rewrite F. now exists [].
      + now exists [].
    - rewrite E. destruct (truthy (JObj p)) eqn:T.
      + exists p. split; [reflexivity|discriminate].
      + now exists []. }
  assert (exists e, first_el_of fields = Return (JObj e) /\
                    (get_or fields "elements" JNull = JNull -> e = [])) as (e & Ee & Ne).
  { unfold first_el_of, py_or, get_or in *. destruct He as [F|(e & rest & E)].
    - destruct (dict_get fields "elements") as [v|].
      + rewrite F. now exists [].
      + now exists [].
    - rewrite E. cbn. exists e. split; [reflexivity|discriminate]. }
  exists (row_of fields ts p e). split.
  { now apply transform_event_object. }
  split; [|split; [|split]].
  - unfold row_of, get_or; cbn. now intros ->.
  - unfold row_of, get_or; cbn. now intros ->.
  - intros N. rewrite (Np N). unfold row_of, property_columns; cbn.
    repeat constructor.
  - intros N. rewrite (Ne N). now split.
Qed.
End TransformFacts.

(** C4 as stated fails: an event whose top-level [$el_text] is present but
    empty gets the first element's text. *)
Lemma element_text_precedence_counterexample :
  let p := [("$el_text", JStr "")] in
  let e := [("text", JStr "Click")] in
  let ev := JObj [("id", JStr "abc"); ("properties", JObj p); ("elements", JArr [JObj e])] in
  dict_get p "$el_text" = Some (JStr "") /\
  dict_get e "text" = Some (JStr "Click") /\
  exists r, transform_event (fun s : string => Some s) "now" ev = Return r /\
            element_text r = JStr "Click" /\
            element_text r <> JStr "".
Proof.
  cbv zeta. split; [reflexivity|]. split; [reflexivity|].
  eexists. split; [reflexivity|]. split; [reflexivity|discriminate].
Qed.

Lemma element_text_precedence_witness :
  exists r,
    transform_event (fun s : string => Some s) "now"
      (JObj [("properties", JObj [("$el_text", JStr "Buy")]);
             ("elements", JArr [JObj [("text", JStr "Click")]])]) = Return r /\
    element_text r = JStr "Buy".
Proof.
  eexists. split; [reflexivity|].
  apply (element_text_precedence (fun s : string => Some s) "now"
           [("properties", JObj [("$el_text", JStr "Buy")]);
            ("elements", JArr [JObj [("text", JStr "Click")]])]
           [("$el_text", JStr "Buy")] [("text", JStr "Click")] []);
    reflexivity.
Defined.

(** C10 as stated fails: a JSON-object event whose [properties] is a text
    raises, whatever the date parser accepts. *)
Lemma transform_event_total_counterexample :
  transform_event (fun s : string => Some s) "now"
    (JObj [("id", JStr "abc"); ("properties", JStr "x")]) = Raise AttributeError.
Proof. reflexivity. Qed.

Lemma transform_event_total_witness :
  exists r,
    transform_event (fun _ : string => @None unit) tt
      (JObj [("properties", JNull); ("elements", JNull)]) = Return r /\
    id r = JStr "".
Proof.
  destruct (transform_event_total (fun _ : string => @None unit) tt
              [("properties", JNull); ("elements", JNull)])
    as (r & H & Hid & _).
  - left. reflexivity.
  - left. reflexivity.
  - left. reflexivity.
  - exists r. split; [exact H|]. apply Hid. reflexivity.
Defined.

(** The worked example of the specification: no top-level text, so the
    element's text is taken. *)
Example transform_event_example :
  exists r,
    transform_event accept_all "2025-09-16T08:00:00" ev_example = Return r /\
    id r = JStr "abc" /\
    timestamp r = "2025-09-15T10:00:00" /\
    current_url r = JStr "https://x/y" /\
    element_tag r = JStr "button" /\
    element_text r = JStr "Click".
Proof. eexists. repeat split. Qed.

(* ------------------------------------------------------------------ *)
(** ** [fetch_events] *)

Section FetchFacts.
Variable serve : provider.
Variable url : string.
Variable headers : list (string * string).
Variable params : list (string * json).

Lemma read_page_is_page items next r :
  is_page items next r -> read_page r = Return (items, next).
Proof.
  intros (status & d & -> & Hs & Hr & Hn).
  unfold read_page. rewrite Hs. cbn [bind py_get]. rewrite Hr, Hn. reflexivity.
Qed.

(** A cursor that differs from the first URL is requested as it is. *)
Lemma page_request_cursor next_url :
  eq_str next_url url = false ->
  page_request url headers params next_url =
    {| req_url := next_url; req_headers := headers; req_params := None; req_timeout := 30 |}.
Proof. unfold page_request. now intros ->. Qed.

Lemma page_request_url next_url :
  req_url (page_request url headers params next_url) = next_url.
Proof. unfold page_request. now destruct (eq_str next_url url). Qed.

(** The loop ends at the first response without a cursor. *)
Lemma fetch_pages_stops fuel sent events next_url :
  truthy next_url = false ->
  fetch_pages serve url headers params fuel sent events next_url
    = Some (sent, Return events).
Proof. intros H. destruct fuel; cbn; now rewrite H. Qed.

Lemma fetch_pages_follows fuel sent events next_url items next_url' :
  truthy next_url = true ->
  is_page items next_url' (serve (sent ++ [page_request url headers params next_url])) ->
  fetch_pages serve url headers params (S fuel) sent events next_url
    = fetch_pages serve url headers params fuel
        (sent ++ [page_request url headers params next_url]) (events ++ items) next_url'.
Proof.
  intros T P. cbn [fetch_pages]. rewrite T.
  now rewrite (read_page_is_page _ _ _ P).
Qed.

Lemma fetch_pages_raises fuel sent events next_url e :
  truthy next_url = true ->
  read_page (serve (sent ++ [page_request url headers params next_url])) = Raise e ->
  fetch_pages serve url headers params (S fuel) sent events next_url
    = Some (sent ++ [page_request url headers params next_url], Raise e).
Proof. intros T P. cbn [fetch_pages]. now rewrite T, P. Qed.
End FetchFacts.

Lemma events_url_truthy cfg : truthy (JStr (events_url cfg)) = true.
Proof.
  unfold events_url, truthy. destruct (base_url cfg); reflexivity.
Qed.

(** C3.  When the provider answers the three requests of the loop with three
    pages of [N] events, the first two with a cursor and the third without
    one, [fetch_events] returns the three pages in order, [3 * N] events,
    as soon as the fuel covers three rounds. *)
Theorem fetch_events_three_pages env serve after before event_name limit cfg
        (N : nat) p1 p2 p3 c1 c2 c3 fuel :
  _get_posthog_config env = Return cfg ->
  let ask := page_request (events_url cfg) (request_headers cfg)
               (query_params after before event_name limit) in
  let r1 := ask (JStr (events_url cfg)) in
  let r2 := ask c1 in
  let r3 := ask c2 in
  is_page p1 c1 (serve [r1]) -> truthy c1 = true ->
  is_page p2 c2 (serve [r1; r2]) -> truthy c2 = true ->
  is_page p3 c3 (serve [r1; r2; r3]) -> truthy c3 = false ->
  List.length p1 = N -> List.length p2 = N -> List.length p3 = N ->
  (3 <= fuel)%nat ->
  fetch_events env serve fuel after before event_name limit
    = Some ([r1; r2; r3], Return (p1 ++ p2 ++ p3)) /\
  List.length (p1 ++ p2 ++ p3) = (3 * N)%nat.
Proof.
  intros Hcfg ask r1 r2 r3 P1 T1 P2 T2 P3 T3 L1 L2 L3 Hfuel.
  split.
  - unfold fetch_events. rewrite Hcfg.
    destruct fuel as [|[|[|fuel]]]; try lia.
    rewrite (fetch_pages_follows serve _ _ _ _ [] [] _ p1 c1 (events_url_truthy cfg) P1).
    rewrite (fetch_pages_follows serve _ _ _ _ [r1] _ _ p2 c2 T1 P2).
    rewrite (fetch_pages_follows serve _ _ _ _ [r1; r2] _ _ p3 c3 T2 P3).
    rewrite fetch_pages_stops by exact T3.
    cbn [app]. now rewrite <- app_assoc.
  - rewrite !length_app. lia.
Qed.

Lemma fetch_events_three_pages_witness :
  exists sent,
    fetch_events (env_of posthog_env) (scripted three_pages) 3
      "2025-09-15T00:00:00Z" "2025-09-16T00:00:00Z" "$autocapture" 100
    = Some (sent, Return ([click "a"] ++ [click "b"] ++ [click "c"])).
Proof.
  eexists.
  apply (fetch_events_three_pages (env_of posthog_env) (scripted three_pages)
           "2025-09-15T00:00:00Z" "2025-09-16T00:00:00Z" "$autocapture" 100
           {| api_key := "phx_key"; project_id := "1";
              base_url := "https://us.posthog.com" |}
           1 [click "a"] [click "b"] [click "c"]
           (JStr "https://us.posthog.com/api/projects/1/events/?offset=1")
           (JStr "https://us.posthog.com/api/projects/1/events/?offset=2")
           JNull 3);
    try reflexivity; try lia;
    (do 2 eexists; split; [reflexivity|]; split; [reflexivity|]; split; reflexivity).
Defined.

(** C9 at its failing input.  The first response carries a cursor equal to
    the URL of the first request; the follow-up request goes to that URL,
    and the original [params] are attached to it again. *)
Theorem fetch_events_cursor_is_endpoint :
  exists r1 r2,
    fetch_events (env_of posthog_env) (scripted cursor_is_endpoint) 2
      "2025-09-15T00:00:00Z" "2025-09-16T00:00:00Z" "$autocapture" 100
    = Some ([r1; r2], Return [click "a"; click "b"]) /\
    req_url r2 = JStr first_url /\
    req_params r2 = Some (query_params "2025-09-15T00:00:00Z" "2025-09-16T00:00:00Z"
                            "$autocapture" 100) /\
    req_params r2 <> None.
Proof.
  do 2 eexists. split; [reflexivity|]. split; [reflexivity|]. split; [reflexivity|discriminate].
Qed.

(* ------------------------------------------------------------------ *)
(** ** Equality of primary keys *)

Section JsonInduction.
Variable P : json -> Prop.
Hypothesis HNull : P JNull.
Hypothesis HBool : forall b, P (JBool b).
Hypothesis HInt : forall n, P (JInt n).
Hypothesis HFloat : forall lit, P (JFloat lit).
Hypothesis HStr : forall s, P (JStr s).
Hypothesis HArr : forall items, Forall P items -> P (JArr items).
Hypothesis HObj : forall fields, Forall (fun kv => P (snd kv)) fields -> P (JObj fields).

Fixpoint json_nested_ind (v : json) : P v :=
  match v with
  | JNull => HNull
  | JBool b => HBool b
  | JInt n => HInt n
  | JFloat lit => HFloat lit
  | JStr s => HStr s
  | JArr items =>
      HArr items
        ((fix all (l : list json) : Forall P l :=
            match l with
            | [] => Forall_nil P
            | x :: l' => Forall_cons x (json_nested_ind x) (all l')
            end) items)
  | JObj fields =>
      HObj fields
        ((fix all (l : list (string * json)) : Forall (fun kv => P (snd kv)) l :=
            match l with
            | [] => Forall_nil _
            | kv :: l' => Forall_cons kv (json_nested_ind (snd kv)) (all l')
            end) fields)
  end.
End JsonInduction.

Lemma json_eqb_eq a : forall c, json_eqb a c = true <-> a = c.
Proof.
  induction a using json_nested_ind; intros c;
    destruct c as [|b'|n'|lit'|s'|items'|fields']; cbn;
    try (split; [discriminate|discriminate]).
  - tauto.
  - rewrite Bool.eqb_true_iff. split; [now intros ->|now intros [= ->]].
  - rewrite Z.eqb_eq. split; [now intros ->|now intros [= ->]].
  - rewrite String.eqb_eq. split; [now intros ->|now intros [= ->]].
  - rewrite String.eqb_eq. split; [now intros ->|now intros [= ->]].
  - revert items'. induction H as [|x l Hx Hl IH]; intros [|y ys];
      try (split; [discriminate|discriminate]); [tauto|].
    rewrite andb_true_iff, Hx, IH.
    split; [intros [-> [= ->]]; reflexivity|intros [= -> ->]; split; reflexivity].
  - revert fields'. induction H as [|[k x] l Hx Hl IH]; intros [|[k' y] ys];
      try (split; [discriminate|discriminate]); [tauto|].
    cbn in Hx. rewrite !andb_true_iff, String.eqb_eq, Hx, IH.
    split; [intros [[-> ->] [= ->]]; reflexivity|intros [= -> -> ->]; repeat split].
Qed.

Lemma json_eqb_refl a : json_eqb a a = true.
Proof. now apply json_eqb_eq. Qed.

Lemma json_eqb_neq a b : json_eqb a b = false <-> a <> b.
Proof.
  split.
  - intros H E. apply json_eqb_eq in E. congruence.
  - intros H. destruct (json_eqb a b) eqn:E; [|reflexivity].
    apply json_eqb_eq in E. contradiction.
Qed.

(* ------------------------------------------------------------------ *)
(** ** Binding values to columns *)


Lemma map_result_length {A B : Type} (f : A -> result B) l : forall l',
  map_result f l = Return l' -> List.length l' = List.length l.
Proof.
  induction l as [|x l IH]; intros l'; cbn.
  - now intros [= <-].
  - destruct (f x) as [y|]; [|discriminate]. cbn.
    destruct (map_result f l) as [ys|]; [|discriminate].
    intros [= <-]. cbn. now rewrite (IH ys).
Qed.

Section Binding.
Context {datetime : Type}.
Variable engine : Engine.
Implicit Types (r : ClickEvent datetime) (k : json).


(** The key an INSERT stores is the key a lookup of the same value
    compares with. *)
Lemma bind_key_lookup k k' :
  bind_value engine "id" (String_ 50) false k = Return k' ->
  lookup_key engine k = Return k'.
Proof.
  unfold bind_value, lookup_key.
  destruct k; try discriminate; cbn [within];
    try (destruct (engine "id" (String_ 50) _) as [w|]; [|discriminate]; cbn [bind];
         destruct w; try discriminate;
         destruct (N.leb _ _); [now intros [= <-]|discriminate]).
  cbn [bind]. destruct (N.leb _ _); [now intros [= <-]|discriminate].
Qed.



Lemma stored_row_id r i d cols :
  List.length cols = 23%nat -> id (stored_row r i d cols) = i.
Proof.
  intros L. unfold stored_row.
  do 23 (destruct cols as [|? cols]; [discriminate L|]).
  destruct cols; [reflexivity|discriminate L].
Qed.

Lemma stored_row_distinct_id r i d cols :
  List.length cols = 23%nat -> distinct_id (stored_row r i d cols) = d.
Proof.
  intros L. unfold stored_row.
  do 23 (destruct cols as [|? cols]; [discriminate L|]).
  destruct cols; [reflexivity|discriminate L].
Qed.


Lemma bind_row_returns r r' :
  bind_row engine r = Return r' ->
  bind_value engine "id" (String_ 50) false (id r) = Return (id r') /\
  bind_value engine "distinct_id" (String_ 255) false (distinct_id r)
  = Return (distinct_id r').
Proof.
  unfold bind_row.
  destruct (bind_value engine "id" _ _ _) as [i|]; [|discriminate]. cbn [bind].
  destruct (bind_value engine "distinct_id" _ _ _) as [d|]; [|discriminate]. cbn [bind].
  destruct (map_result _ optional_schema) as [cols|] eqn:M; [|discriminate]. cbn [bind].
  destruct (N.leb _ _); [|discriminate]. cbn [bind]. intros [= <-].
  apply map_result_length in M.
  now rewrite (stored_row_id _ _ _ _ M), (stored_row_distinct_id _ _ _ _ M).
Qed.

Lemma bind_row_key r r' :
  bind_row engine r = Return r' -> lookup_key engine (id r) = Return (id r').
Proof. intros H. apply bind_row_returns in H. now apply bind_key_lookup. Qed.
End Binding.

(* ------------------------------------------------------------------ *)
(** ** The session *)

Section SessionFacts.
Context {datetime : Type}.
Variable engine : Engine.
Implicit Types (s : Session datetime) (r : ClickEvent datetime).
Implicit Types (l : list (ClickEvent datetime)) (k : json).

Lemma find_pk_Some l k r : find_pk l k = Some r -> In r l /\ id r = k.
Proof.
  induction l as [|x l IH]; cbn; [discriminate|].
  destruct (json_eqb (id x) k) eqn:E.
  - intros [= <-]. apply json_eqb_eq in E. now split; [left|].
  - intros H. destruct (IH H). now split; [right|].
Qed.

Lemma find_pk_None l k : find_pk l k = None <-> ~ In k (ids l).
Proof.
  unfold ids. induction l as [|x l IH]; cbn; [tauto|].
  destruct (json_eqb (id x) k) eqn:E.
  - apply json_eqb_eq in E. split; [discriminate|]. intros H. destruct H. now left.
  - apply json_eqb_neq in E. rewrite IH. tauto.
Qed.

Lemma find_pk_In l k : In k (ids l) -> exists r, find_pk l k = Some r.
Proof.
  intros H. destruct (find_pk l k) as [r|] eqn:E; [now exists r|].
  apply find_pk_None in E. contradiction.
Qed.

Lemma find_pk_app l1 l2 k :
  find_pk (l1 ++ l2) k =
    match find_pk l1 k with Some r => Some r | None => find_pk l2 k end.
Proof.
  induction l1 as [|x l1 IH]; cbn; [reflexivity|].
  now destruct (json_eqb (id x) k).
Qed.

Lemma ids_app l1 l2 : ids (l1 ++ l2) = ids l1 ++ ids l2.
Proof. apply map_app. Qed.

(** *** Statements *)

Lemma statement_frame s (u : result unit) s' :
  statement s = (u, s') ->
  table s' = table s /\ txn s' = txn s /\
  identity_map s' = identity_map s /\ pending s' = pending s.
Proof.
  unfold statement. destruct (hd false (failing s)); intros [= <- <-]; cbn; tauto.
Qed.

Lemma statement_ok s :
  failing s = [] -> statement s = (Return tt, sent_one s) /\ failing (sent_one s) = [].
Proof.
  intros F. unfold statement. rewrite F. cbn. split; [reflexivity|now rewrite F].
Qed.

(** *** INSERT *)

Lemma insert_returns r s (u : unit) s' :
  insert engine r s = (Return u, s') ->
  exists r',
    bind_row engine r = Return r' /\ find_pk (visible s) (id r') = None /\
    table s' = table s /\ txn s' = txn s ++ [r'] /\
    identity_map s' = identity_map s ++ [r'] /\ pending s' = pending s.
Proof.
  unfold insert, db_bind.
  destruct (statement s) as [[[]|e] s1] eqn:St; [|discriminate].
  apply statement_frame in St. destruct St as (Ht & Hx & Hi & Hp).
  destruct (bind_row engine r) as [r'|]; [|discriminate].
  destruct (find_pk (visible s1) (id r')) eqn:K; [discriminate|].
  intros [= <- <-]; cbn. exists r'. unfold visible in *.
  now rewrite <- Ht, <- Hx, Hi, Hp.
Qed.

Lemma insert_table r s (u : result unit) s' :
  insert engine r s = (u, s') -> table s' = table s.
Proof.
  unfold insert, db_bind.
  destruct (statement s) as [[[]|e] s1] eqn:St;
    apply statement_frame in St; destruct St as (Ht & _).
  - destruct (bind_row engine r) as [r'|]; [|now intros [= <- <-]].
    destruct (find_pk (visible s1) (id r')); now intros [= <- <-].
  - now intros [= <- <-].
Qed.

Lemma insert_ok r r' s :
  failing s = [] -> bind_row engine r = Return r' ->
  find_pk (visible s) (id r') = None ->
  exists s', insert engine r s = (Return tt, s') /\ failing s' = [].
Proof.
  intros F B K. unfold insert, db_bind.
  destruct (statement_ok s F) as [-> F1]. rewrite B.
  change (visible (sent_one s)) with (visible s). rewrite K.
  eexists. split; [reflexivity|exact F1].
Qed.

(** *** Flush *)

Lemma flush_rows_table l : forall s (u : result unit) s',
  flush_rows engine l s = (u, s') -> table s' = table s.
Proof.
  induction l as [|r l IH]; intros s u s'; cbn.
  - now intros [= <- <-].
  - unfold db_bind at 1.
    destruct (insert engine r s) as [[[]|e] s1] eqn:I; apply insert_table in I.
    + unfold db_bind, set_pending. intros H. apply IH in H. cbn in H. congruence.
    + now intros [= <- <-].
Qed.

Lemma flush_rows_returns l : forall s (u : unit) s',
  flush_rows engine l s = (Return u, s') ->
  exists bound,
    map_result (bind_row engine) l = Return bound /\ insertable (visible s) bound /\
    table s' = table s /\ txn s' = txn s ++ bound /\
    identity_map s' = identity_map s ++ bound /\
    pending s' = match l with [] => pending s | _ :: _ => [] end.
Proof.
  induction l as [|r l IH]; intros s u s'; cbn [flush_rows map_result].
  - intros [= <- <-]. exists []. cbn. now rewrite !app_nil_r.
  - unfold db_bind at 1.
    destruct (insert engine r s) as [[[]|e] s1] eqn:I; [|discriminate].
    apply insert_returns in I. destruct I as (r' & B & K & Ht & Hx & Hi & Hp).
    unfold db_bind, set_pending. intros H. apply IH in H. cbn in H.
    destruct H as (bound & M & Ins & Ht' & Hx' & Hi' & Hp').
    exists (r' :: bound). rewrite B, M. cbn.
    unfold visible in *. cbn in Ins. rewrite Ht, Hx, app_assoc in Ins.
    rewrite Ht', Hx', Hi', Ht, Hx, Hi, <- !app_assoc. cbn.
    repeat split; trivial.
    + now rewrite app_assoc.
    + rewrite Hp'. now destruct l.
Qed.

Lemma flush_rows_ok l : forall s bound,
  failing s = [] -> map_result (bind_row engine) l = Return bound ->
  insertable (visible s) bound ->
  exists s', flush_rows engine l s = (Return tt, s') /\ failing s' = [].
Proof.
  induction l as [|r l IH]; intros s bound F M Hl; cbn [flush_rows map_result] in *.
  - exists s. now split.
  - destruct (bind_row engine r) as [r'|] eqn:B; [|discriminate]. cbn [bind] in M.
    destruct (map_result (bind_row engine) l) as [bound'|] eqn:M'; [|discriminate].
    injection M as <-. destruct Hl as (K & Hl).
    destruct (insert_ok r r' s F B K) as (s1 & I & F1).
    unfold db_bind at 1. rewrite I. unfold db_bind, set_pending.
    apply insert_returns in I. destruct I as (r2 & B2 & _ & Ht & Hx & _).
    rewrite B in B2. injection B2 as <-.
    apply (IH _ bound'); cbn; [exact F1|reflexivity|].
    unfold visible in *. cbn. now rewrite Ht, Hx, app_assoc.
Qed.

Lemma flush_table s (u : result unit) s' : flush engine s = (u, s') -> table s' = table s.
Proof. apply flush_rows_table. Qed.

Lemma flush_returns s (u : unit) s' :
  flush engine s = (Return u, s') ->
  exists bound,
    map_result (bind_row engine) (pending s) = Return bound /\
    insertable (visible s) bound /\
    table s' = table s /\ txn s' = txn s ++ bound /\
    identity_map s' = identity_map s ++ bound /\ pending s' = [].
Proof.
  intros H. apply flush_rows_returns in H.
  destruct H as (bound & M & Ins & Ht & Hx & Hi & Hp).
  exists bound. repeat split; trivial. rewrite Hp. now destruct (pending s).
Qed.

Lemma flush_ok s bound :
  failing s = [] -> map_result (bind_row engine) (pending s) = Return bound ->
  insertable (visible s) bound ->
  exists s', flush engine s = (Return tt, s') /\ failing s' = [].
Proof. apply flush_rows_ok. Qed.

(** *** SELECT and [Session.get] *)

Lemma select_pk_table k s (u : result (option (ClickEvent datetime))) s' :
  select_pk k s = (u, s') -> table s' = table s.
Proof.
  unfold select_pk, db_bind.
  destruct (statement s) as [[[]|e] s1] eqn:St;
    apply statement_frame in St; destruct St as (Ht & _).
  - destruct (find_pk (visible s1) k); now intros [= <- <-].
  - now intros [= <- <-].
Qed.

Lemma select_pk_returns k s o s' :
  select_pk k s = (Return o, s') ->
  table s' = table s /\ txn s' = txn s /\ pending s' = pending s /\
  o = find_pk (visible s) k /\
  incl (ids (identity_map s')) (ids (identity_map s) ++ ids (visible s)).
Proof.
  unfold select_pk, db_bind.
  destruct (statement s) as [[[]|e] s1] eqn:St; [|discriminate].
  apply statement_frame in St. destruct St as (Ht & Hx & Hi & Hp).
  assert (visible s1 = visible s) as -> by (unfold visible; congruence).
  destruct (find_pk (visible s) k) as [r|] eqn:K; intros [= <- <-]; cbn.
  - repeat split; trivial. rewrite Hi, ids_app.
    apply find_pk_Some in K. destruct K as [K _].
    intros x [H|[<-|[]]]%in_app_or; apply in_or_app; [now left|right].
    unfold ids. now apply in_map.
  - repeat split; trivial. rewrite Hi. now apply incl_appl.
Qed.

Lemma select_pk_ok k s :
  failing s = [] ->
  exists o s', select_pk k s = (Return o, s') /\ failing s' = [].
Proof.
  intros F. unfold select_pk, db_bind. destruct (statement_ok s F) as [-> F1].
  destruct (find_pk (visible (sent_one s)) k); do 2 eexists; (split; [reflexivity|exact F1]).
Qed.

Lemma get_table k s (u : result (option (ClickEvent datetime))) s' :
  get engine k s = (u, s') -> table s' = table s.
Proof.
  unfold get. destruct (lookup_key engine k) as [t|]; [|now intros [= <- <-]].
  destruct (find_pk (identity_map s) t); [now intros [= <- <-]|].
  unfold db_bind. destruct (flush engine s) as [[[]|e] s1] eqn:Fl; apply flush_table in Fl.
  - intros H. apply select_pk_table in H. congruence.
  - now intros [= <- <-].
Qed.

(** [get] answers whether the key is among the rows the connection sees
    once the pending instances are flushed; it finds the key in the
    identity map without a flush only when the connection sees it. *)
Lemma get_returns ident s o s' :
  identity_map_sound s ->
  get engine ident s = (Return o, s') ->
  exists k,
    lookup_key engine ident = Return k /\ identity_map_sound s' /\
    ((s' = s /\ o <> None /\ In k (ids (visible s))) \/
     (exists bound,
         map_result (bind_row engine) (pending s) = Return bound /\
         insertable (visible s) bound /\
         table s' = table s /\ txn s' = txn s ++ bound /\ pending s' = [] /\
         o = find_pk (visible s ++ bound) k)).
Proof.
  intros Snd. unfold get.
  destruct (lookup_key engine ident) as [k|]; [|discriminate].
  destruct (find_pk (identity_map s) k) as [r|] eqn:Hit.
  - intros [= <- <-]. exists k. split; [reflexivity|]. split; [exact Snd|].
    left. split; [reflexivity|]. split; [discriminate|].
    apply find_pk_Some in Hit. destruct Hit as [Hin <-].
    apply Snd. unfold ids. now apply in_map.
  - unfold db_bind. destruct (flush engine s) as [[[]|e] s1] eqn:Fl; [|discriminate].
    apply flush_returns in Fl. destruct Fl as (bound & M & Ins & Ht & Hx & Hi & Hp).
    intros H. apply select_pk_returns in H.
    destruct H as (Ht' & Hx' & Hp' & -> & Hi').
    assert (visible s1 = visible s ++ bound) as V1.
    { unfold visible. now rewrite Ht, Hx, app_assoc. }
    assert (visible s' = visible s ++ bound) as V.
    { rewrite <- V1. unfold visible. now rewrite Ht', Hx'. }
    exists k. split; [reflexivity|]. split.
    + unfold identity_map_sound. rewrite V. intros x Hx0. apply Hi' in Hx0.
      rewrite Hi, V1, !ids_app in Hx0. rewrite ids_app.
      apply in_app_or in Hx0. destruct Hx0 as [Hx0|Hx0]; [|exact Hx0].
      apply in_app_or in Hx0. destruct Hx0 as [Hx0|Hx0].
      * apply in_or_app. left. now apply Snd.
      * apply in_or_app. now right.
    + right. exists bound. rewrite V1. repeat split; trivial; congruence.
Qed.

Lemma get_ok ident k s bound :
  failing s = [] -> lookup_key engine ident = Return k ->
  map_result (bind_row engine) (pending s) = Return bound ->
  insertable (visible s) bound ->
  exists o s', get engine ident s = (Return o, s') /\ failing s' = [].
Proof.
  intros F L M I. unfold get. rewrite L.
  destruct (find_pk (identity_map s) k) as [r|].
  - exists (Some r), s. tauto.
  - destruct (flush_ok s bound F M I) as (s1 & Fl & F1).
    unfold db_bind. rewrite Fl. now apply select_pk_ok.
Qed.

(** *** COMMIT *)

Lemma commit_raises s e s' : commit engine s = (Raise e, s') -> table s' = table s.
Proof.
  unfold commit, db_bind.
  destruct (flush engine s) as [[[]|e1] s1] eqn:Fl; apply flush_table in Fl.
  - destruct (begun s1); [|discriminate].
    destruct (statement s1) as [[[]|e2] s2] eqn:St; [discriminate|].
    apply statement_frame in St. destruct St as (Ht & _).
    intros [= <- <-]. congruence.
  - now intros [= <- <-].
Qed.

Lemma commit_returns s (u : unit) s' :
  commit engine s = (Return u, s') ->
  exists bound,
    map_result (bind_row engine) (pending s) = Return bound /\
    insertable (visible s) bound /\
    table s' = visible s ++ bound.
Proof.
  unfold commit, db_bind.
  destruct (flush engine s) as [[[]|e1] s1] eqn:Fl; [|discriminate].
  apply flush_returns in Fl. destruct Fl as (bound & M & Ins & Ht & Hx & _).
  intros H. exists bound. split; [exact M|]. split; [exact Ins|]. revert H.
  destruct (begun s1).
  - destruct (statement s1) as [[[]|e2] s2] eqn:St; [|discriminate].
    apply statement_frame in St. destruct St as (Ht' & Hx' & _).
    intros [= <- <-]. cbn. unfold visible.
    now rewrite Ht', Hx', Ht, Hx, app_assoc.
  - intros [= <- <-]. cbn. unfold visible. now rewrite Ht, Hx, app_assoc.
Qed.

Lemma commit_ok s bound :
  failing s = [] -> map_result (bind_row engine) (pending s) = Return bound ->
  insertable (visible s) bound ->
  exists s', commit engine s = (Return tt, s') /\ failing s' = [].
Proof.
  intros F M I. unfold commit, db_bind.
  destruct (flush_ok s bound F M I) as (s1 & -> & F1).
  destruct (begun s1).
  - destruct (statement_ok s1 F1) as [-> F2]. eexists. split; [reflexivity|exact F2].
  - eexists. split; [reflexivity|exact F1].
Qed.
End SessionFacts.

(* ------------------------------------------------------------------ *)
(** ** [store_events] *)

Section NewRows.
Context {datetime : Type}.
Variable engine : Engine.
Implicit Types (seen ms : list (ClickEvent datetime)).




(** Every instance of the batch has its key among the rows afterwards. *)
Lemma new_rows_covers ms : forall seen ins m,
  new_rows engine seen ms = Return ins -> In m ms ->
  exists k, lookup_key engine (id m) = Return k /\ In k (ids (seen ++ ins)).
Proof.
  induction ms as [|x ms IH]; intros seen ins m; cbn; [intros _ []|].
  destruct (lookup_key engine (id x)) as [k|] eqn:L; [|discriminate]. cbn [bind].
  destruct (find_pk seen k) as [r0|] eqn:K.
  - intros N [<-|H]; [|now apply (IH seen)].
    exists k. split; [exact L|]. apply find_pk_Some in K. destruct K as [K <-].
    rewrite ids_app. apply in_or_app. left. unfold ids. now apply in_map.
  - destruct (bind_row engine x) as [r|] eqn:B; [|discriminate]. cbn [bind].
    destruct (new_rows engine (seen ++ [r]) ms) as [more|] eqn:N; [|discriminate].
    intros [= <-] [<-|H].
    + exists k. split; [exact L|].
      apply bind_row_key in B. rewrite L in B. injection B as ->.
      rewrite ids_app. apply in_or_app. right. unfold ids. now left.
    + destruct (IH _ _ m N H) as (k' & L' & Hin). exists k'. split; [exact L'|].
      now rewrite <- app_assoc in Hin.
Qed.

(** A batch whose keys are all stored adds nothing. *)
Lemma new_rows_stored ms : forall seen,
  (forall m, In m ms ->
             exists k, lookup_key engine (id m) = Return k /\ In k (ids seen)) ->
  new_rows engine seen ms = Return [].
Proof.
  induction ms as [|x ms IH]; intros seen H; cbn; [reflexivity|].
  destruct (H x (or_introl eq_refl)) as (k & -> & Hin). cbn [bind].
  destruct (find_pk_In seen k Hin) as [r ->].
  apply IH. intros m Hm. apply H. now right.
Qed.



End NewRows.

Section StoreFacts.
Context {datetime : Type}.
Variable engine : Engine.
Variable fromisoformat : string -> option datetime.
Variable utcnow : nat -> datetime.
Implicit Types (s : Session datetime) (d : Database datetime).

(** Nothing in the loop touches the committed rows. *)
Lemma store_loop_table events : forall i n s (u : result Z) s',
  store_loop engine fromisoformat utcnow i events n s = (u, s') -> table s' = table s.
Proof.
  induction events as [|evt rest IH]; intros i n s u s'; cbn.
  - now intros [= <- <-].
  - unfold db_bind at 1, db_lift.
    destruct (transform_event fromisoformat (utcnow i) evt) as [m|e];
      [|now intros [= <- <-]].
    unfold db_bind at 1.
    destruct (get engine (id m) s) as [[[r|]|e] s1] eqn:G; apply get_table in G.
    + intros H. apply IH in H. congruence.
    + unfold db_bind, add. intros H. apply IH in H. cbn in H. congruence.
    + now intros [= <- <-].
Qed.

Lemma loop_commit_cons i evt rest n s :
  loop_commit engine fromisoformat utcnow i (evt :: rest) n s =
    match transform_event fromisoformat (utcnow i) evt with
    | Raise e => (Raise e, s)
    | Return m =>
        match get engine (id m) s with
        | (Raise e, s1) => (Raise e, s1)
        | (Return (Some _), s1) =>
            loop_commit engine fromisoformat utcnow (S i) rest n s1
        | (Return None, s1) =>
            loop_commit engine fromisoformat utcnow (S i) rest (n + 1)%Z (snd (add m s1))
        end
    end.
Proof.
  unfold loop_commit. cbn [store_loop]. unfold db_bind at 1 2, db_lift.
  destruct (transform_event fromisoformat (utcnow i) evt) as [m|e]; [|reflexivity].
  unfold db_bind at 1. destruct (get engine (id m) s) as [[[r|]|e] s1]; reflexivity.
Qed.

(** When the loop and the commit return, the committed rows are the rows
    the connection saw, the pending instances bound, and the new rows of
    the batch; the counter has grown by the number of the latter. *)
Lemma loop_commit_returns events : forall i n s n' s',
  identity_map_sound s ->
  loop_commit engine fromisoformat utcnow i events n s = (Return n', s') ->
  exists models bound ins,
    transform_from fromisoformat utcnow i events = Return models /\
    map_result (bind_row engine) (pending s) = Return bound /\
    new_rows engine (visible s ++ bound) models = Return ins /\
    table s' = (visible s ++ bound) ++ ins /\
    n' = (n + Z.of_nat (List.length ins))%Z.
Proof.
  induction events as [|evt rest IH]; intros i n s n' s' Snd.
  - unfold loop_commit. cbn [store_loop]. unfold db_bind, db_ret.
    destruct (commit engine s) as [[[]|e] s1] eqn:C; [|discriminate].
    intros [= <- <-]. apply commit_returns in C. destruct C as (bound & M & _ & Ht).
    exists [], bound, []. cbn. rewrite app_nil_r, Z.add_0_r. tauto.
  - rewrite loop_commit_cons.
    destruct (transform_event fromisoformat (utcnow i) evt) as [m|e] eqn:T; [|discriminate].
    destruct (get engine (id m) s) as [[o|e] s1] eqn:G; [|discriminate].
    apply get_returns in G; [|exact Snd].
    destruct G as (k & L & Snd1 & [(-> & Ho & Hin)|(bound & M & Ins & Ht & Hx & Hp & Ho)]).
    + destruct o as [r|]; [|contradiction]. intros H. apply IH in H; [|exact Snd].
      destruct H as (ms & bound & ins & Hms & M & N & Ht & Hn).
      exists (m :: ms), bound, ins. cbn. rewrite T, Hms, L. cbn.
      destruct (find_pk_In (visible s ++ bound) k) as [r0 ->]; [|tauto].
      rewrite ids_app. apply in_or_app. now left.
    + assert (visible s1 = visible s ++ bound) as V.
      { unfold visible. now rewrite Ht, Hx, app_assoc. }
      destruct o as [r|].
      * intros H. apply IH in H; [|exact Snd1].
        destruct H as (ms & bound1 & ins & Hms & M1 & N & Ht1 & Hn).
        rewrite Hp in M1. injection M1 as <-. rewrite app_nil_r, V in *.
        exists (m :: ms), bound, ins. cbn. rewrite T, Hms, L. cbn. rewrite <- Ho. tauto.
      * set (s3 := snd (add m s1)).
        assert (visible s3 = visible s ++ bound) as V3 by (rewrite <- V; reflexivity).
        assert (pending s3 = [m]) as P3 by (unfold s3; cbn; now rewrite Hp).
        assert (identity_map_sound s3) as Snd3 by exact Snd1.
        clearbody s3. intros H. apply IH in H; [|exact Snd3].
        destruct H as (ms & bound1 & ins & Hms & M1 & N & Ht1 & Hn).
        rewrite P3 in M1. cbn in M1.
        destruct (bind_row engine m) as [r|] eqn:B; [|discriminate].
        injection M1 as <-. rewrite V3 in *.
        exists (m :: ms), bound, (r :: ins). cbn. rewrite T, Hms, L. cbn.
        rewrite <- Ho, B. cbn. rewrite N. cbn.
        repeat split; trivial.
        -- now rewrite Ht1, <- !app_assoc.
        -- lia.
Qed.

(** With no failure of the server, the loop and the commit return whenever
    the batch transforms, the pending instances can be inserted and the
    new rows of the batch are determined. *)
Lemma loop_commit_ok events : forall i n s models bound ins,
  failing s = [] -> identity_map_sound s ->
  transform_from fromisoformat utcnow i events = Return models ->
  map_result (bind_row engine) (pending s) = Return bound ->
  insertable (visible s) bound ->
  new_rows engine (visible s ++ bound) models = Return ins ->
  exists n' s',
    loop_commit engine fromisoformat utcnow i events n s = (Return n', s') /\
    failing s' = [].
Proof.
  induction events as [|evt rest IH]; intros i n s models bound ins F Snd Hms M I N.
  - unfold loop_commit. cbn [store_loop]. unfold db_bind, db_ret.
    destruct (commit_ok engine s bound F M I) as (s1 & -> & F1). eauto.
  - rewrite loop_commit_cons. cbn in Hms.
    destruct (transform_event fromisoformat (utcnow i) evt) as [m|e] eqn:T; [|discriminate].
    cbn [bind] in Hms.
    destruct (transform_from fromisoformat utcnow (S i) rest) as [ms|] eqn:Hrest;
      [|discriminate].
    injection Hms as <-. cbn [new_rows] in N.
    destruct (lookup_key engine (id m)) as [k|] eqn:L; [|discriminate]. cbn [bind] in N.
    destruct (get_ok engine (id m) k s bound F L M I) as (o & s1 & G & F1).
    rewrite G. apply get_returns in G; [|exact Snd].
    destruct G as (k' & L' & Snd1 & [(-> & Ho & Hin)|(bound' & M' & _ & Ht & Hx & Hp & Ho)]);
      rewrite L in L'; injection L' as <-.
    + destruct o as [r|]; [|contradiction].
      destruct (find_pk_In (visible s ++ bound) k) as [r0 K].
      { rewrite ids_app. apply in_or_app. now left. }
      rewrite K in N. now apply (IH (S i) n s ms bound ins).
    + rewrite M in M'. injection M' as <-.
      assert (visible s1 = visible s ++ bound) as V.
      { unfold visible. now rewrite Ht, Hx, app_assoc. }
      destruct o as [r|].
      * rewrite <- Ho in N.
        apply (IH (S i) n s1 ms [] ins); trivial.
        -- now rewrite Hp.
        -- exact Logic.I.
        -- now rewrite app_nil_r, V.
      * rewrite <- Ho in N.
        destruct (bind_row engine m) as [r|] eqn:B; [|discriminate]. cbn [bind] in N.
        destruct (new_rows engine ((visible s ++ bound) ++ [r]) ms) as [more|] eqn:N';
          [|discriminate].
        apply (IH (S i) (n + 1)%Z (snd (add m s1)) ms [r] more); trivial.
        -- change (pending (snd (add m s1))) with (pending s1 ++ [m]).
           rewrite Hp. cbn. now rewrite B.
        -- split; [|exact Logic.I].
           change (find_pk (visible s1) (id r) = None). rewrite V.
           apply bind_row_key in B. rewrite L in B. injection B as <-. now symmetry.
        -- change (visible (snd (add m s1))) with (visible s1). now rewrite V.
Qed.

Lemma SessionLocal_sound d : identity_map_sound (SessionLocal d).
Proof. intros x []. Qed.

Lemma visible_SessionLocal d : visible (SessionLocal d) = rows d.
Proof. unfold visible. cbn. apply app_nil_r. Qed.

Lemma store_session_loop_commit events s :
  store_session engine fromisoformat utcnow events s =
    match loop_commit engine fromisoformat utcnow 0 events 0%Z s with
    | (Return n, s') => (Return n, s')
    | (Raise e, s') => (Raise e, rollback s')
    end.
Proof. reflexivity. Qed.

(** What [store_events] returns, and what it leaves in the table. *)
Lemma store_events_returns events d n d' :
  store_events engine fromisoformat utcnow events d = (Return n, d') ->
  exists models ins,
    transform_from fromisoformat utcnow 0 events = Return models /\
    new_rows engine (rows d) models = Return ins /\
    rows d' = rows d ++ ins /\
    n = Z.of_nat (List.length ins).
Proof.
  unfold store_events. rewrite store_session_loop_commit.
  destruct (loop_commit engine fromisoformat utcnow 0 events 0 (SessionLocal d))
    as [[n0|e] s1] eqn:L; [|discriminate].
  intros [= <- <-].
  apply loop_commit_returns in L; [|apply SessionLocal_sound].
  destruct L as (ms & bound & ins & Hms & M & N & Ht & Hn).
  cbn in M. injection M as <-. rewrite visible_SessionLocal, app_nil_r in *.
  exists ms, ins. cbn. tauto.
Qed.

(** When [store_events] raises, the table is the one it started from. *)
Lemma store_events_raises events d e d' :
  store_events engine fromisoformat utcnow events d = (Raise e, d') -> rows d' = rows d.
Proof.
  unfold store_events, store_session, loop_commit, db_bind.
  destruct (store_loop engine fromisoformat utcnow 0 events 0 (SessionLocal d))
    as [[n0|e0] s1] eqn:L; apply store_loop_table in L.
  - destruct (commit engine s1) as [[[]|e1] s2] eqn:C; [discriminate|].
    apply commit_raises in C. intros [= <- <-]. cbn in *. congruence.
  - intros [= <- <-]. cbn in *. congruence.
Qed.

Lemma store_events_ok events d models ins :
  transform_from fromisoformat utcnow 0 events = Return models ->
  failures d = [] ->
  new_rows engine (rows d) models = Return ins ->
  store_events engine fromisoformat utcnow events d =
    (Return (Z.of_nat (List.length ins)), {| rows := rows d ++ ins; failures := [] |}).
Proof.
  intros Hms F N.
  destruct (loop_commit_ok events 0 0%Z (SessionLocal d) models [] ins F
              (SessionLocal_sound d) Hms eq_refl Logic.I) as (n' & s1 & L & F1).
  { now rewrite visible_SessionLocal, app_nil_r. }
  unfold store_events. rewrite store_session_loop_commit, L.
  apply loop_commit_returns in L; [|apply SessionLocal_sound].
  destruct L as (ms & bound & ins' & Hms' & M & N' & Ht & Hn).
  cbn in M. injection M as <-. rewrite visible_SessionLocal, app_nil_r in *.
  rewrite Hms in Hms'. injection Hms' as <-. rewrite N in N'. injection N' as <-.
  unfold close. now rewrite Ht, F1, Hn.
Qed.

End StoreFacts.

Section StoreClaims.
Context {datetime : Type}.
Variable engine : Engine.
Variable fromisoformat : string -> option datetime.
Variable utcnow : nat -> datetime.
Implicit Types (s : Session datetime) (d : Database datetime).


(** C7.  When the loop has gone through the batch and [db.commit()] raises
    -- in its flush or at the COMMIT --, the [except] branch rolls the
    session back: the transaction's rows, the pending instances and the
    identity map are gone from the session that [finally] closes, the
    server is sent nothing after the failed commit, and [store_events]
    raises the same exception over the table it started from. *)
Theorem store_events_commit_fails events d n s1 e s2 :
  store_loop engine fromisoformat utcnow 0 events 0 (SessionLocal d) = (Return n, s1) ->
  commit engine s1 = (Raise e, s2) ->
  store_session engine fromisoformat utcnow events (SessionLocal d)
    = (Raise e, rollback s2) /\
  txn (rollback s2) = [] /\ pending (rollback s2) = [] /\
  identity_map (rollback s2) = [] /\
  table (rollback s2) = rows d /\ failing (rollback s2) = failing s2 /\
  store_events engine fromisoformat utcnow events d =
    (Raise e, {| rows := rows d; failures := failing s2 |}).
Proof.
  intros L C.
  assert (store_session engine fromisoformat utcnow events (SessionLocal d)
          = (Raise e, rollback s2)) as E.
  { unfold store_session, loop_commit, db_bind. now rewrite L, C. }
  apply store_loop_table in L. apply commit_raises in C.
  split; [exact E|]. repeat (split; [reflexivity|]).
  split; [cbn in *; congruence|]. split; [reflexivity|].
  unfold store_events. rewrite E. unfold close, rollback. cbn in *. now rewrite C, L.
Qed.

End StoreClaims.


Lemma store_events_commit_fails_witness :
  let d := {| rows := [stored "x"]; failures := [false; false; true] |} in
  commit strict
    {| table := [stored "x"]; failing := [false; true]; begun := true; txn := [];
       identity_map := []; pending := [stored "y"] |}
  = (Raise OperationalError,
     {| table := [stored "x"]; failing := []; begun := true; txn := [stored "y"];
        identity_map := [stored "y"]; pending := [] |}) /\
  store_session strict accept_all frozen_clock [click "y"] (SessionLocal d)
  = (Raise OperationalError,
     {| table := [stored "x"]; failing := []; begun := false; txn := [];
        identity_map := []; pending := [] |}) /\
  store_events strict accept_all frozen_clock [click "y"] d =
    (Raise OperationalError, {| rows := [stored "x"]; failures := [] |}).
Proof.
  intros d. split; [reflexivity|].
  destruct (store_events_commit_fails strict accept_all frozen_clock [click "y"] d 1%Z
              {| table := [stored "x"]; failing := [false; true]; begun := true; txn := [];
                 identity_map := []; pending := [stored "y"] |}
              OperationalError
              {| table := [stored "x"]; failing := []; begun := true;
                 txn := [stored "y"]; identity_map := [stored "y"]; pending := [] |}
              eq_refl eq_refl) as (S & _ & _ & _ & _ & _ & E).
  split; [exact S|exact E].
Defined.


(** The bounds, the engine and the lazy transaction at work.  An empty
    batch sends the server nothing, so a server that would fail the next
    statement does not fail it. *)
Example store_events_empty_batch :
  store_events strict accept_all frozen_clock []
    {| rows := [stored "x"]; failures := [true] |}
  = (Return 0%Z, {| rows := [stored "x"]; failures := [true] |}).
Proof. reflexivity. Qed.

(** With an engine that compares an [int] with the column [id] as its
    decimal text, the event with the [id] 5 is found under the key ['5']
    and skipped. *)
Example store_events_integer_key :
  store_events text_affinity accept_all frozen_clock
    [JObj [("id", JInt 5); ("distinct_id", JStr "u1")]]
    {| rows := [stored "5"]; failures := [] |}
  = (Return 0%Z, {| rows := [stored "5"]; failures := [] |}).
Proof. reflexivity. Qed.

(** A [$viewport_width] beyond the [Integer] column sinks the batch, the
    event before it included. *)
Example store_events_integer_out_of_range :
  store_events text_affinity accept_all frozen_clock
    [click "a";
     JObj [("id", JStr "b"); ("distinct_id", JStr "u1");
           ("properties", JObj [("$viewport_width", JInt (2 ^ 70))])]]
    {| rows := []; failures := [] |}
  = (Raise DataError, {| rows := []; failures := [] |}).
Proof. reflexivity. Qed.

(** With an engine that takes no list for an identity, an event whose [id]
    is a list makes [Session.get] raise. *)
Example store_events_list_key :
  store_events text_affinity accept_all frozen_clock
    [JObj [("id", JArr [JStr "a"; JStr "b"]); ("distinct_id", JStr "u1")]]
    {| rows := [stored "a"]; failures := [] |}
  = (Raise InvalidRequestError, {| rows := [stored "a"]; failures := [] |}).
Proof. reflexivity. Qed.

(* ------------------------------------------------------------------ *)
(** ** [sync_posthog_events] *)

Section SyncFacts.
Context {datetime : Type}.
Variable engine : Engine.
Variable fromisoformat : string -> option datetime.
Variable isoformat : datetime -> string.

(** Whether an event transforms, and the key it gets, do not depend on
    the clock. *)
Lemma transform_event_clock (now1 now2 : datetime) ev r1 :
  transform_event fromisoformat now1 ev = Return r1 ->
  exists r2, transform_event fromisoformat now2 ev = Return r2 /\ id r2 = id r1.
Proof.
  intros H. apply transform_event_inv in H.
  destruct H as (fields & ts & p & e & -> & Hts & Hp & He & ->).
  assert (exists ts2, timestamp_of fromisoformat now2 fields = Return ts2) as [ts2 Hts2].
  { unfold timestamp_of in *.
    destruct (truthy (get_or fields "timestamp" JNull)); [now exists ts|now exists now2]. }
  exists (row_of fields ts2 p e). split; [|reflexivity].
  now apply transform_event_object.
Qed.

Lemma transform_from_clock (clock1 clock2 : nat -> datetime) events :
  forall i j ms1,
    transform_from fromisoformat clock1 i events = Return ms1 ->
    exists ms2,
      transform_from fromisoformat clock2 j events = Return ms2 /\ ids ms2 = ids ms1.
Proof.
  induction events as [|ev rest IH]; intros i j ms1; cbn.
  - intros [= <-]. now exists [].
  - destruct (transform_event fromisoformat (clock1 i) ev) as [r1|] eqn:T; [|discriminate].
    cbn. destruct (transform_from fromisoformat clock1 (S i) rest) as [ms|] eqn:R;
      [|discriminate].
    intros [= <-].
    destruct (transform_event_clock _ (clock2 j) _ _ T) as (r2 & -> & E).
    destruct (IH (S i) (S j) ms R) as (ms2 & -> & E2).
    exists (r2 :: ms2). cbn. split; [reflexivity|]. unfold ids in *. cbn. congruence.
Qed.

(** A batch stored once is stored as a whole: storing it again, with no
    failure of the server, returns 0 and leaves the database as it is. *)
Lemma store_events_again (clock1 clock2 : nat -> datetime) events d n1 d1 :
  store_events engine fromisoformat clock1 events d = (Return n1, d1) ->
  failures d1 = [] ->
  store_events engine fromisoformat clock2 events d1 = (Return 0%Z, d1).
Proof.
  intros E F. apply store_events_returns in E.
  destruct E as (ms1 & ins & Hms1 & N1 & Hr & _).
  destruct (transform_from_clock clock1 clock2 events 0 0 ms1 Hms1) as (ms2 & Hms2 & Ids).
  assert (new_rows engine (rows d1) ms2 = Return []) as N2.
  { apply new_rows_stored. intros m Hm. rewrite Hr.
    assert (In (id m) (ids ms1)) as Hin.
    { rewrite <- Ids. unfold ids. now apply in_map. }
    unfold ids in Hin. apply in_map_iff in Hin. destruct Hin as (m1 & E1 & Hin).
    rewrite <- E1. now apply (new_rows_covers engine ms1). }
  rewrite (store_events_ok engine fromisoformat clock2 events d1 ms2 [] Hms2 F N2).
  cbn. rewrite app_nil_r. destruct d1; cbn in *. now subst.
Qed.

(** C2.  After a run of [sync_posthog_events] that returned, a second run
    with the same parameters whose fetch returns the same events, and
    during which the server fails no statement, returns 0 and leaves the
    database as the first run left it. *)
Theorem sync_posthog_events_idempotent env serve1 serve2 clock1 clock2 fuel1 fuel2
        (start end_ : datetime) event_name limit d sent1 sent2 events acts1 n1 d1 :
  fetch_events env serve1 fuel1 (to_iso isoformat start) (to_iso isoformat end_)
    event_name limit = Some (sent1, Return events) ->
  sync_posthog_events engine fromisoformat isoformat env serve1 clock1 fuel1
    start end_ event_name limit d = Some (acts1, Return n1, d1) ->
  fetch_events env serve2 fuel2 (to_iso isoformat start) (to_iso isoformat end_)
    event_name limit = Some (sent2, Return events) ->
  failures d1 = [] ->
  sync_posthog_events engine fromisoformat isoformat env serve2 clock2 fuel2
    start end_ event_name limit d1
    = Some (map HttpGet sent2 ++ [DbSession], Return 0%Z, d1).
Proof.
  unfold sync_posthog_events. intros F1 S1 F2 Fl. rewrite F1 in S1. rewrite F2.
  destruct (store_events engine fromisoformat clock1 events d) as [r d'] eqn:E1.
  injection S1 as _ -> ->.
  now rewrite (store_events_again clock1 clock2 events d n1 d1 E1 Fl).
Qed.
End SyncFacts.

Lemma sync_posthog_events_idempotent_witness :
  let d1 := {| rows := [stored "a"; stored "b"; stored "c"]; failures := [] |} in
  exists acts,
    sync_posthog_events strict accept_all (fun dt : string => dt) (env_of posthog_env)
      (scripted three_pages) frozen_clock 3 "2025-09-15T00:00:00" "2025-09-16T00:00:00"
      "$autocapture" 100 d1 = Some (acts, Return 0%Z, d1).
Proof.
  intros d1. eexists.
  eapply (sync_posthog_events_idempotent strict accept_all (fun dt : string => dt)
           (env_of posthog_env) (scripted three_pages) (scripted three_pages)
           frozen_clock frozen_clock 3 3 "2025-09-15T00:00:00" "2025-09-16T00:00:00"
           "$autocapture" 100 {| rows := []; failures := [] |}
           _ _ [click "a"; click "b"; click "c"] _ 3%Z d1);
    vm_compute; reflexivity.
Defined.

(* ------------------------------------------------------------------ *)
(** ** Configuration errors at startup *)

Section MainFacts.
Context {datetime : Type}.
Variable engine : Engine.
Variable fromisoformat : string -> option datetime.
Variable isoformat : datetime -> string.
Variable minus_one_day : datetime -> option datetime.
Variable make_url : string -> bool.
Variable serve : provider.
Variable utcnow : nat -> datetime.

Lemma _get_posthog_config_unset env :
  is_set (env "POSTHOG_API_KEY") = false \/ is_set (env "POSTHOG_PROJECT_ID") = false ->
  _get_posthog_config env = Raise (EnvironmentError posthog_config_message).
Proof.
  unfold _get_posthog_config. intros [-> | ->]; cbn; [reflexivity|].
  now rewrite orb_true_r.
Qed.

Lemma _get_posthog_config_set env :
  is_set (env "POSTHOG_API_KEY") = true -> is_set (env "POSTHOG_PROJECT_ID") = true ->
  exists cfg, _get_posthog_config env = Return cfg.
Proof. unfold _get_posthog_config. intros -> ->. cbn. eauto. Qed.

(** No request is sent when the PostHog configuration is incomplete. *)
Lemma fetch_events_unconfigured env fuel after before event_name limit :
  is_set (env "POSTHOG_API_KEY") = false \/ is_set (env "POSTHOG_PROJECT_ID") = false ->
  fetch_events env serve fuel after before event_name limit
    = Some ([], Raise (EnvironmentError posthog_config_message)).
Proof. intros H. unfold fetch_events. now rewrite (_get_posthog_config_unset env H). Qed.

(** C6, as amended.  When a database credential is unset, the program
    raises the database configuration error at import, before any network
    or database activity.  When the database credentials are set and the
    API key or the project id is unset, the program raises the PostHog
    configuration error before any network activity, but after the
    creation of the tables at import, which is database activity: it
    takes an engine URL that [create_engine] accepts, a server that does
    not fail [create_all], and command-line dates that parse. *)
Theorem configuration_errors env fuel (now : datetime) args d :
  (forallb is_set (database_credentials env) = false ->
   main engine fromisoformat isoformat minus_one_day make_url env serve utcnow fuel now args d
     = Some ([], Raise (EnvironmentError database_config_message), d)) /\
  (forallb is_set (database_credentials env) = true ->
   is_set (env "POSTHOG_API_KEY") = false \/ is_set (env "POSTHOG_PROJECT_ID") = false ->
   make_url (engine_url env) = true ->
   hd false (failures d) = false ->
   returns (window fromisoformat minus_one_day now args) = true ->
   main engine fromisoformat isoformat minus_one_day make_url env serve utcnow fuel now args d
     = Some ([DbCreateAll], Raise (EnvironmentError posthog_config_message),
             {| rows := rows d; failures := tl (failures d) |})).
Proof.
  split.
  - intros H. unfold main, sqlalchemy_setup. now rewrite H.
  - intros Hdb Hph Hurl Hst Hw. unfold main, sqlalchemy_setup.
    rewrite Hdb, Hurl. cbn [negb].
    assert (statement (SessionLocal d) = (Return tt, sent_one (SessionLocal d))) as ->.
    { unfold statement. cbn [SessionLocal failing]. now rewrite Hst. }
    destruct (window fromisoformat minus_one_day now args) as [[s e]|]; [|discriminate].
    unfold sync_posthog_events.
    now rewrite (fetch_events_unconfigured env _ _ _ _ _ Hph).
Qed.
End MainFacts.

(** C6 as stated fails: with the database credentials set and the API key
    unset, the configuration error is raised only after [create_all] reached
    the database. *)
Lemma configuration_errors_counterexample :
  let env := env_of database_env in
  let args := {| start := None; end_ := None; event_name := "$autocapture"; limit := 100 |} in
  let d := {| rows := [stored "x"]; failures := [] |} in
  env "POSTHOG_API_KEY" = None /\
  main strict accept_all (fun dt : string => dt) (fun dt => Some dt) (fun _ => true) env
    (scripted three_pages) frozen_clock 3 "2025-09-16T08:00:00" args d
    = Some ([DbCreateAll], Raise (EnvironmentError posthog_config_message), d) /\
  [DbCreateAll] <> [].
Proof. cbv zeta. split; [reflexivity|]. split; [reflexivity|discriminate]. Qed.

Lemma configuration_errors_witness :
  let args := {| start := None; end_ := None; event_name := "$autocapture"; limit := 100 |} in
  let d := {| rows := [stored "x"]; failures := [] |} in
  main strict accept_all (fun dt : string => dt) (fun dt => Some dt) (fun _ => true)
    (env_of posthog_env) (scripted three_pages) frozen_clock 3 "2025-09-16T08:00:00" args d
    = Some ([], Raise (EnvironmentError database_config_message), d) /\
  main strict accept_all (fun dt : string => dt) (fun dt => Some dt) (fun _ => true)
    (env_of database_env) (scripted three_pages) frozen_clock 3 "2025-09-16T08:00:00" args d
    = Some ([DbCreateAll], Raise (EnvironmentError posthog_config_message),
            {| rows := rows d; failures := tl (failures d) |}).
Proof.
  intros args d. split.
  - apply (configuration_errors strict accept_all (fun dt : string => dt) (fun dt => Some dt)
             (fun _ => true) (scripted three_pages) frozen_clock (env_of posthog_env)
             3 "2025-09-16T08:00:00" args d). reflexivity.
  - apply (configuration_errors strict accept_all (fun dt : string => dt) (fun dt => Some dt)
             (fun _ => true) (scripted three_pages) frozen_clock (env_of database_env)
             3 "2025-09-16T08:00:00" args d); try reflexivity. left. reflexivity.
Defined.


(* ------------------------------------------------------------------ *)
(** ** The serialization of an event *)


(* ------------------------------------------------------------------ *)
(** ** [transform_event] on an event without optional properties *)



Section BareEvent.
Context {datetime : Type}.
Variable fromisoformat : string -> option datetime.

End BareEvent.



(* ================================================================== *)
(** * Further properties of the code *)

(* ------------------------------------------------------------------ *)
(** ** Texts: [rstrip], [endswith], [[:-1]] *)

Lemma endswith_snoc s c : endswith (s ++ String c "") (String c "") = true.
Proof.
  induction s as [|a s IH]; cbn [append endswith].
  - now rewrite String.eqb_refl.
  - now destruct (String.eqb _ _).
Qed.

Lemma drop_last_snoc s c : drop_last (s ++ String c "") = s.
Proof.
  induction s as [|a s IH]; [reflexivity|].
  cbn [append drop_last]. rewrite IH. now destruct s.
Qed.

Lemma rstrip_no_trailing c s : endswith (rstrip c s) (String c "") = false.
Proof.
  induction s as [|a s IH]; [reflexivity|].
  cbn [rstrip]. destruct (rstrip c s) as [|b r].
  - destruct (Ascii.eqb a c) eqn:E; [reflexivity|].
    cbn. now rewrite E.
  - change (endswith (String a (String b r)) (String c ""))
      with (if String.eqb (String a (String b r)) (String c "") then true
            else endswith (String b r) (String c "")).
    rewrite IH. cbn. destruct (Ascii.eqb a c); reflexivity.
Qed.

Lemma rstrip_removes_only c s :
  exists n, s = (rstrip c s ++ repeat_char c n)%string.
Proof.
  induction s as [|a s [n IH]]; [now exists 0%nat|].
  cbn [rstrip]. destruct (rstrip c s) as [|b r].
  - destruct (Ascii.eqb_spec a c) as [->|N].
    + exists (S n). cbn in *. now rewrite IH at 1.
    + exists n. cbn in *. now rewrite IH at 1.
  - exists n. cbn in *. now rewrite IH at 1.
Qed.

(* ------------------------------------------------------------------ *)
(** ** [_get_posthog_config] *)

(** X1.  The base URL that [_get_posthog_config] returns never ends with a
    slash, and it is [POSTHOG_BASE_HOST] (or the US default when that is
    unset) with nothing but trailing slashes removed; so the events URL has
    exactly one slash between the host and [api]. *)
Theorem posthog_base_url_stripped env cfg :
  _get_posthog_config env = Return cfg ->
  endswith (base_url cfg) "/" = false /\
  (exists n, getenv_or env "POSTHOG_BASE_HOST" "https://us.posthog.com"
             = (base_url cfg ++ repeat_char "/" n)%string) /\
  api_key cfg <> "" /\ project_id cfg <> "" /\
  env "POSTHOG_API_KEY" = Some (api_key cfg) /\
  env "POSTHOG_PROJECT_ID" = Some (project_id cfg).
Proof.
  unfold _get_posthog_config.
  destruct (env "POSTHOG_API_KEY") as [k|]; [|discriminate].
  destruct (env "POSTHOG_PROJECT_ID") as [p|]; cbn [is_set negb orb];
    [|now rewrite orb_true_r].
  destruct (String.eqb_spec k ""); [discriminate|].
  destruct (String.eqb_spec p ""); [discriminate|].
  cbn. intros [= <-]. cbn.
  split; [apply rstrip_no_trailing|]. split; [apply rstrip_removes_only|]. tauto.
Qed.

Lemma posthog_base_url_stripped_witness :
  exists cfg,
    _get_posthog_config
      (env_of (("POSTHOG_BASE_HOST", "https://eu.posthog.com//") :: posthog_env))
    = Return cfg /\
    base_url cfg = "https://eu.posthog.com" /\
    endswith (base_url cfg) "/" = false.
Proof.
  exists {| api_key := "phx_key"; project_id := "1"; base_url := "https://eu.posthog.com" |}.
  split; [reflexivity|]. split; [reflexivity|].
  apply (posthog_base_url_stripped
           (env_of (("POSTHOG_BASE_HOST", "https://eu.posthog.com//") :: posthog_env))).
  reflexivity.
Defined.

(* ------------------------------------------------------------------ *)
(** ** [_parse_iso_datetime] *)

Section ParseFacts.
Context {datetime : Type}.
Variable fromisoformat : string -> option datetime.
Variable isoformat : datetime -> string.

Lemma try_formats_same fmts s :
  try_formats fromisoformat fmts s = None \/
  try_formats fromisoformat fmts s = fromisoformat s.
Proof.
  induction fmts as [|x fmts IH]; [now left|].
  cbn. destruct (fromisoformat s); [now right|exact IH].
Qed.

(** The two format texts of the loop play no role: the result is that of
    [fromisoformat] on the text without its [Z]. *)
Lemma _parse_iso_datetime_text s :
  _parse_iso_datetime fromisoformat (JStr s) =
    match fromisoformat (if endswith s "Z" then drop_last s else s) with
    | Some d => Return d
    | None => Raise ValueError
    end.
Proof.
  unfold _parse_iso_datetime.
  destruct (try_formats_same ["%Y-%m-%dT%H:%M:%S.%f"; "%Y-%m-%dT%H:%M:%S"]
              (if endswith s "Z" then drop_last s else s)) as [E|E]; rewrite E.
  - reflexivity.
  - now destruct (fromisoformat _).
Qed.

(** X2.  [_parse_iso_datetime] strips exactly one trailing [Z]: a text
    [s ++ "Z"] is parsed as [s], whatever [s] ends with, and it raises
    [ValueError] exactly when [fromisoformat] refuses [s]; the two format
    texts of its loop have no influence. *)
Theorem parse_iso_datetime_strips_one_Z s :
  _parse_iso_datetime fromisoformat (JStr (s ++ "Z")) =
    match fromisoformat s with
    | Some d => Return d
    | None => Raise ValueError
    end.
Proof.
  rewrite _parse_iso_datetime_text.
  now rewrite (endswith_snoc s "Z"), (drop_last_snoc s "Z").
Qed.

(** X3.  The text that [sync_posthog_events] builds for a date is read back
    by [_parse_iso_datetime] whenever [fromisoformat] reads back what
    [isoformat] prints: the [Z] that [to_iso] appends is the one stripped. *)
Theorem parse_to_iso_round_trip (dt : datetime) :
  fromisoformat (isoformat dt) = Some dt ->
  _parse_iso_datetime fromisoformat (JStr (to_iso isoformat dt)) = Return dt.
Proof.
  intros H. unfold to_iso.
  now rewrite _parse_iso_datetime_text, (endswith_snoc _ "Z"), (drop_last_snoc _ "Z"), H.
Qed.
End ParseFacts.

Lemma parse_to_iso_round_trip_witness :
  _parse_iso_datetime accept_all (JStr (to_iso (fun dt : string => dt) "2025-09-15T00:00:00"))
  = Return "2025-09-15T00:00:00".
Proof.
  apply (parse_to_iso_round_trip accept_all (fun dt : string => dt) "2025-09-15T00:00:00").
  reflexivity.
Defined.

(* ------------------------------------------------------------------ *)
(** ** [transform_event]: its domain, its timestamp, its first element *)

Section TransformMore.
Context {datetime : Type}.
Variable fromisoformat : string -> option datetime.

Lemma timestamp_of_returns (utcnow : datetime) fields ts :
  timestamp_of fromisoformat utcnow fields = Return ts ->
  (truthy (get_or fields "timestamp" JNull) = false /\ ts = utcnow) \/
  (exists s, get_or fields "timestamp" JNull = JStr s /\ s <> "" /\
             fromisoformat (if endswith s "Z" then drop_last s else s) = Some ts).
Proof.
  unfold timestamp_of. destruct (truthy (get_or fields "timestamp" JNull)) eqn:T.
  - destruct (get_or fields "timestamp" JNull) as [| | | |s| |]; try discriminate.
    rewrite _parse_iso_datetime_text.
    destruct (fromisoformat _) as [d|] eqn:P; [|discriminate].
    intros [= <-]. right. exists s. repeat split; trivial.
    intros ->. discriminate T.
  - intros [= <-]. now left.
Qed.

Lemma props_of_object fields p :
  props_of fields = JObj p ->
  (truthy (get_or fields "properties" JNull) = false /\ p = []) \/
  dict_get fields "properties" = Some (JObj p).
Proof.
  unfold props_of, py_or, get_or.
  destruct (dict_get fields "properties") as [v|]; cbn.
  - destruct (truthy v) eqn:T.
    + intros ->. now right.
    + intros [= <-]. now left.
  - intros [= <-]. now left.
Qed.

Lemma first_el_of_object fields e :
  first_el_of fields = Return (JObj e) ->
  (truthy (get_or fields "elements" JNull) = false /\ e = []) \/
  exists rest, dict_get fields "elements" = Some (JArr (JObj e :: rest)).
Proof.
  unfold first_el_of, py_or, get_or.
  destruct (dict_get fields "elements") as [v|]; cbn.
  - destruct (truthy v) eqn:T; rewrite ?T.
    + destruct v as [| | | |s|[|x l]|d]; try discriminate.
      * destruct s; discriminate.
      * cbn. intros [= ->]. right. now exists l.
    + cbn. intros [= <-]. now left.
  - intros [= <-]. now left.
Qed.

(** X4.  [transform_event] returns a record exactly for the JSON objects
    whose [timestamp] is falsy or a text that [fromisoformat] accepts once a
    trailing [Z] is stripped, whose [properties] is falsy or a mapping, and
    whose [elements] is falsy or a list that starts with a mapping; on every
    other value it raises. *)
Theorem transform_event_returns_iff (utcnow : datetime) ev :
  (exists r, transform_event fromisoformat utcnow ev = Return r) <->
  (exists fields,
      ev = JObj fields /\
      (truthy (get_or fields "timestamp" JNull) = false \/
       exists s d, dict_get fields "timestamp" = Some (JStr s) /\
                   fromisoformat (if endswith s "Z" then drop_last s else s) = Some d) /\
      (truthy (get_or fields "properties" JNull) = false \/
       exists p, dict_get fields "properties" = Some (JObj p)) /\
      (truthy (get_or fields "elements" JNull) = false \/
       exists e rest, dict_get fields "elements" = Some (JArr (JObj e :: rest)))).
Proof.
  split.
  - intros [r H]. apply transform_event_inv in H.
    destruct H as (fields & ts & p & e & -> & Hts & Hp & He & _).
    exists fields. split; [reflexivity|]. split; [|split].
    + apply timestamp_of_returns in Hts. destruct Hts as [[T _]|(s & E & _ & P)];
        [now left|right].
      exists s, ts. split; [|exact P]. unfold get_or in E.
      destruct (dict_get fields "timestamp"); [now subst|discriminate].
    + apply props_of_object in Hp. destruct Hp as [[T _]|E]; [now left|right; eauto].
    + apply first_el_of_object in He. destruct He as [[T _]|[rest E]]; [now left|right; eauto].
  - intros (fields & -> & Hts & Hp & He).
    assert (exists ts, timestamp_of fromisoformat utcnow fields = Return ts) as [ts Ets].
    { unfold timestamp_of. destruct Hts as [F|(s & d & E & P)].
      - rewrite F. eauto.
      - unfold get_or. rewrite E. destruct (truthy (JStr s)); [|eauto].
        rewrite _parse_iso_datetime_text, P. eauto. }
    assert (exists p, props_of fields = JObj p) as [p Ep].
    { unfold props_of, py_or, get_or in *. destruct Hp as [F|(p & E)].
      - destruct (dict_get fields "properties"); [rewrite F|]; cbn; eauto.
      - rewrite E. destruct (truthy (JObj p)); eauto. }
    assert (exists e, first_el_of fields = Return (JObj e)) as [e Ee].
    { unfold first_el_of, py_or, get_or in *. destruct He as [F|(e & rest & E)].
      - destruct (dict_get fields "elements"); [rewrite F|]; cbn; eauto.
      - rewrite E. cbn. eauto. }
    exists (row_of fields ts p e). now apply transform_event_object.
Qed.

(** X6.  When an event has a non-empty [timestamp] text, the record's
    [timestamp] is what [fromisoformat] reads from it (without its trailing
    [Z]), and the clock plays no role: the record is the same at any time. *)
Theorem transform_event_timestamp (utcnow : datetime) fields s r :
  dict_get fields "timestamp" = Some (JStr s) -> s <> "" ->
  transform_event fromisoformat utcnow (JObj fields) = Return r ->
  fromisoformat (if endswith s "Z" then drop_last s else s) = Some (timestamp r) /\
  forall now', transform_event fromisoformat now' (JObj fields) = Return r.
Proof.
  intros E N H. apply transform_event_inv in H.
  destruct H as (fields' & ts & p & e & [= <-] & Hts & Hp & He & ->).
  assert (truthy (get_or fields "timestamp" JNull) = true) as T.
  { unfold get_or. rewrite E. cbn. now destruct (String.eqb_spec s ""). }
  split.
  - apply timestamp_of_returns in Hts. destruct Hts as [[F _]|(s' & E' & _ & P)];
      [congruence|].
    unfold get_or in E'. rewrite E in E'. now injection E' as <-.
  - intros now'. apply transform_event_object; trivial.
    unfold timestamp_of in *. now rewrite T in *.
Qed.

(** X7.  Only the first element counts: when [elements] starts with a
    descriptor, the tag and the link of the record are those of that
    descriptor, whatever follows it in the list, and an [element_text] that
    is empty or null is that descriptor's text. *)
Theorem transform_event_first_element (utcnow : datetime) fields e rest r :
  dict_get fields "elements" = Some (JArr (JObj e :: rest)) ->
  transform_event fromisoformat utcnow (JObj fields) = Return r ->
  element_tag r = get_or e "tag_name" JNull /\
  element_href r = get_or e "href" JNull /\
  (truthy (element_text r) = false -> element_text r = get_or e "text" JNull).
Proof.
  intros E H. apply transform_event_inv in H.
  destruct H as (fields' & ts & p & e' & [= <-] & _ & _ & He & ->).
  assert (e' = e) as ->.
  { unfold first_el_of, py_or, get_or in He. rewrite E in He. cbn in He.
    now injection He. }
  cbn [element_tag element_href element_text row_of].
  split; [reflexivity|]. split; [reflexivity|].
  unfold py_or. destruct (truthy (get_or p "$el_text" JNull)) eqn:T.
  - now rewrite T.
  - reflexivity.
Qed.
End TransformMore.

Lemma transform_event_timestamp_witness :
  exists r,
    transform_event accept_all "2025-09-16T08:00:00" ev_example = Return r /\
    accept_all "2025-09-15T10:00:00" = Some (timestamp r).
Proof.
  eexists. split; [reflexivity|].
  refine (proj1 (transform_event_timestamp accept_all "2025-09-16T08:00:00" example_fields
                   "2025-09-15T10:00:00Z" _ eq_refl _ eq_refl)).
  discriminate.
Defined.

Lemma transform_event_first_element_witness :
  exists r,
    transform_event accept_all "2025-09-16T08:00:00" ev_example = Return r /\
    element_tag r = JStr "button".
Proof.
  eexists. split; [reflexivity|].
  exact (proj1 (transform_event_first_element accept_all "2025-09-16T08:00:00"
                  example_fields
                  [("tag_name", JStr "button"); ("href", JNull); ("text", JStr "Click")]
                  [] _ eq_refl eq_refl)).
Defined.

(* ------------------------------------------------------------------ *)
(** ** [fetch_events]: any number of pages, errors, the requests it sends *)

Section FetchMore.
Variable serve : provider.
Variable url : string.
Variable headers : list (string * string).
Variable params : list (string * json).

Lemma asked_length next ps :
  List.length (asked url headers params next ps) = List.length ps.
Proof.
  revert next. induction ps as [|[items c] ps IH]; intros next; cbn; [reflexivity|].
  now rewrite IH.
Qed.

(** The loop goes through the pages it is served. *)
Lemma fetch_pages_through ps : forall fuel sent events next,
  served serve url headers params sent next ps ->
  fetch_pages serve url headers params (List.length ps + fuel) sent events next
  = fetch_pages serve url headers params fuel
      (sent ++ asked url headers params next ps)
      (events ++ List.concat (map fst ps))
      (last_cursor next ps).
Proof.
  induction ps as [|[items c] ps IH]; intros fuel sent events next H.
  - cbn. now rewrite !app_nil_r.
  - destruct H as (T & P & H).
    cbn [List.length Nat.add].
    rewrite (fetch_pages_follows serve url headers params _ sent events next items c T P).
    rewrite (IH fuel _ _ c H). cbn [asked map List.concat fst].
    now rewrite <- !app_assoc.
Qed.

(** What the loop sends: every request has the headers and the timeout, the
    [params] go only to the first URL, and the requests already sent stay. *)
Lemma fetch_pages_requests fuel : forall sent events next sent' r,
  fetch_pages serve url headers params fuel sent events next = Some (sent', r) ->
  exists more,
    sent' = sent ++ more /\
    Forall (fun q => req_headers q = headers /\ req_timeout q = 30%Z /\
                     (req_params q = None \/
                      req_params q = Some params /\ req_url q = JStr url)) more /\
    (truthy next = true ->
     exists rest, more = page_request url headers params next :: rest).
Proof.
  assert (forall next,
             let q := page_request url headers params next in
             req_headers q = headers /\ req_timeout q = 30%Z /\
             (req_params q = None \/ req_params q = Some params /\ req_url q = JStr url))
    as Hq.
  { intros next. unfold page_request. destruct (eq_str next url) eqn:E; cbn.
    - repeat split. right. split; [reflexivity|].
      destruct next; try discriminate. cbn in E. apply String.eqb_eq in E. now subst.
    - repeat split. now left. }
  induction fuel as [|fuel IH]; intros sent events next sent' r; cbn [fetch_pages];
    destruct (truthy next) eqn:T.
  - discriminate.
  - intros [= <- <-]. exists []. rewrite app_nil_r. repeat split; [constructor|discriminate].
  - destruct (read_page _) as [[items next']|e].
    + intros H. apply IH in H. destruct H as (more & -> & Hm & _).
      exists (page_request url headers params next :: more).
      rewrite <- app_assoc. repeat split; [constructor; [apply Hq|exact Hm]|eauto].
    + intros [= <- <-]. exists [page_request url headers params next].
      repeat split; [constructor; [apply Hq|constructor]|eauto].
  - intros [= <- <-]. exists []. rewrite app_nil_r. repeat split; [constructor|discriminate].
Qed.

(** A provider that always sends a cursor keeps the loop going. *)
Lemma fetch_pages_endless :
  (forall sent, exists items c, is_page items c (serve sent) /\ truthy c = true) ->
  forall fuel sent events next,
    truthy next = true ->
    fetch_pages serve url headers params fuel sent events next = None.
Proof.
  intros H. induction fuel as [|fuel IH]; intros sent events next T.
  - cbn. now rewrite T.
  - destruct (H (sent ++ [page_request url headers params next])) as (items & c & P & Tc).
    rewrite (fetch_pages_follows serve url headers params _ sent events next items c T P).
    now apply IH.
Qed.
End FetchMore.

(** X8.  Pagination is complete for any number of pages: when the provider
    serves the pages [ps] one after the other, every one but the last with a
    cursor, [fetch_events] returns their items in order, and it has sent one
    request per page. *)
Theorem fetch_events_all_pages env serve after before event_name limit cfg ps fuel :
  _get_posthog_config env = Return cfg ->
  let url := events_url cfg in
  let headers := request_headers cfg in
  let params := query_params after before event_name limit in
  served serve url headers params [] (JStr url) ps ->
  truthy (last_cursor (JStr url) ps) = false ->
  (List.length ps <= fuel)%nat ->
  fetch_events env serve fuel after before event_name limit
    = Some (asked url headers params (JStr url) ps, Return (List.concat (map fst ps))) /\
  List.length (asked url headers params (JStr url) ps) = List.length ps.
Proof.
  intros Hcfg url headers params Hs Hl Hf. split; [|apply asked_length].
  unfold fetch_events. rewrite Hcfg. fold url headers params.
  replace fuel with (List.length ps + (fuel - List.length ps))%nat by lia.
  rewrite (fetch_pages_through serve url headers params ps _ [] [] _ Hs).
  now rewrite fetch_pages_stops.
Qed.

(** X9.  An error status on any page aborts the whole fetch: after the pages
    [ps], a response with a status from 400 to 599 makes [fetch_events]
    raise [HTTPError] with that status; the events of the pages already
    read are not returned, and no request follows the failed one. *)
Theorem fetch_events_http_error env serve after before event_name limit cfg ps fuel
        status body :
  _get_posthog_config env = Return cfg ->
  let url := events_url cfg in
  let headers := request_headers cfg in
  let params := query_params after before event_name limit in
  let next := last_cursor (JStr url) ps in
  served serve url headers params [] (JStr url) ps ->
  truthy next = true ->
  serve (asked url headers params (JStr url) ps ++ [page_request url headers params next])
    = Response status body ->
  (400 <= status < 600)%Z ->
  (List.length ps < fuel)%nat ->
  fetch_events env serve fuel after before event_name limit
    = Some (asked url headers params (JStr url) ps ++ [page_request url headers params next],
            Raise (HTTPError status)).
Proof.
  intros Hcfg url headers params next Hs Ht Hr Hst Hf.
  unfold fetch_events. rewrite Hcfg. fold url headers params.
  replace fuel with (List.length ps + S (fuel - S (List.length ps)))%nat by lia.
  rewrite (fetch_pages_through serve url headers params ps _ [] [] _ Hs).
  fold next. cbn [app].
  apply fetch_pages_raises; [exact Ht|].
  rewrite Hr. unfold read_page, raise_for_status.
  destruct (Z.leb_spec 400 status); [|lia].
  destruct (Z.ltb_spec status 600); [|lia]. reflexivity.
Qed.

(** X10.  The loop has no bound of its own: when every response carries a
    truthy cursor, [fetch_events] does not return, whatever the fuel. *)
Theorem fetch_events_endless env serve after before event_name limit cfg :
  _get_posthog_config env = Return cfg ->
  (forall sent, exists items c, is_page items c (serve sent) /\ truthy c = true) ->
  forall fuel, fetch_events env serve fuel after before event_name limit = None.
Proof.
  intros Hcfg H fuel. unfold fetch_events. rewrite Hcfg.
  apply fetch_pages_endless; [exact H|apply events_url_truthy].
Qed.

(** X11.  Every request of [fetch_events] carries the bearer token of the
    configuration and the timeout of 30 seconds; the first one goes to the
    events URL with the four query parameters, and no request to another
    URL carries query parameters.  When the configuration is incomplete no
    request is sent at all. *)
Theorem fetch_events_requests env serve fuel after before event_name limit sent r :
  fetch_events env serve fuel after before event_name limit = Some (sent, r) ->
  match _get_posthog_config env with
  | Raise e => sent = [] /\ r = Raise e
  | Return cfg =>
      Forall (fun q =>
                req_headers q = [("Authorization", ("Bearer " ++ api_key cfg)%string);
                                 ("Content-Type", "application/json")] /\
                req_timeout q = 30%Z /\
                (req_params q = None \/ req_url q = JStr (events_url cfg))) sent /\
      exists rest,
        sent = {| req_url := JStr (events_url cfg);
                  req_headers := request_headers cfg;
                  req_params := Some [("after", JStr after); ("before", JStr before);
                                      ("event", JStr event_name); ("limit", JInt limit)];
                  req_timeout := 30 |} :: rest
  end.
Proof.
  unfold fetch_events. destruct (_get_posthog_config env) as [cfg|e].
  - intros H. apply fetch_pages_requests in H. destruct H as (more & -> & Hm & Hf).
    cbn [app]. split.
    + eapply Forall_impl; [|exact Hm]. cbn. intros q (Hh & Ht & Hp).
      repeat split; trivial. destruct Hp as [Hp|[_ Hp]]; [now left|now right].
    + destruct (Hf (events_url_truthy cfg)) as [rest ->]. exists rest. f_equal.
      unfold page_request, eq_str. now rewrite String.eqb_refl.
  - now intros [= <- <-].
Qed.

Lemma fetch_events_all_pages_witness :
  fetch_events (env_of posthog_env) (scripted three_pages) 3
    "2025-09-15T00:00:00Z" "2025-09-16T00:00:00Z" "$autocapture" 100
  = Some (asked first_url
            (request_headers {| api_key := "phx_key"; project_id := "1";
                                base_url := "https://us.posthog.com" |})
            (query_params "2025-09-15T00:00:00Z" "2025-09-16T00:00:00Z" "$autocapture" 100)
            (JStr first_url)
            [([click "a"], JStr "https://us.posthog.com/api/projects/1/events/?offset=1");
             ([click "b"], JStr "https://us.posthog.com/api/projects/1/events/?offset=2");
             ([click "c"], JNull)],
          Return [click "a"; click "b"; click "c"]).
Proof.
  refine (proj1 (fetch_events_all_pages (env_of posthog_env) (scripted three_pages)
                   "2025-09-15T00:00:00Z" "2025-09-16T00:00:00Z" "$autocapture" 100
                   {| api_key := "phx_key"; project_id := "1";
                      base_url := "https://us.posthog.com" |}
                   [([click "a"], JStr "https://us.posthog.com/api/projects/1/events/?offset=1");
                    ([click "b"], JStr "https://us.posthog.com/api/projects/1/events/?offset=2");
                    ([click "c"], JNull)] 3 eq_refl _ eq_refl _)).
  - cbn [served]. repeat split;
      (do 2 eexists; split; [reflexivity|]; split; [reflexivity|]; split; reflexivity).
  - cbn. lia.
Defined.

Lemma fetch_events_http_error_witness :
  exists sent,
    fetch_events (env_of posthog_env) (scripted second_page_fails) 5
      "2025-09-15T00:00:00Z" "2025-09-16T00:00:00Z" "$autocapture" 100
    = Some (sent, Raise (HTTPError 503)) /\ List.length sent = 2%nat.
Proof.
  eexists. split.
  - refine (fetch_events_http_error (env_of posthog_env) (scripted second_page_fails)
              "2025-09-15T00:00:00Z" "2025-09-16T00:00:00Z" "$autocapture" 100
              {| api_key := "phx_key"; project_id := "1";
                 base_url := "https://us.posthog.com" |}
              [([click "a"], JStr "https://us.posthog.com/api/projects/1/events/?offset=1")]
              5 503 None eq_refl _ eq_refl eq_refl _ _).
    + cbn [served]. repeat split.
      do 2 eexists; split; [reflexivity|]; split; [reflexivity|]; split; reflexivity.
    + lia.
    + cbn. lia.
  - reflexivity.
Defined.

Lemma fetch_events_endless_witness :
  fetch_events (env_of posthog_env) endless 1000
    "2025-09-15T00:00:00Z" "2025-09-16T00:00:00Z" "$autocapture" 100 = None.
Proof.
  apply (fetch_events_endless (env_of posthog_env) endless _ _ _ _
           {| api_key := "phx_key"; project_id := "1";
              base_url := "https://us.posthog.com" |} eq_refl).
  intros sent. exists [click "a"], (JStr "https://us.posthog.com/api/projects/1/events/?offset=1").
  split; [|reflexivity].
  do 2 eexists; split; [reflexivity|]; split; [reflexivity|]; split; reflexivity.
Defined.

Lemma fetch_events_requests_witness :
  exists q rest,
    fetch_events (env_of posthog_env) (scripted three_pages) 3
      "2025-09-15T00:00:00Z" "2025-09-16T00:00:00Z" "$autocapture" 100
    = Some (q :: rest, Return [click "a"; click "b"; click "c"]) /\
    req_url q = JStr first_url.
Proof.
  pose proof (fetch_events_requests (env_of posthog_env) (scripted three_pages) 3
                "2025-09-15T00:00:00Z" "2025-09-16T00:00:00Z" "$autocapture" 100
                _ _ eq_refl) as H.
  cbn [_get_posthog_config] in H. destruct H as [_ [rest H]].
  do 2 eexists. split; [reflexivity|reflexivity].
Defined.

(* ------------------------------------------------------------------ *)
(** ** [store_events]: malformed events, stored rows, constraints *)

Section QuietServer.
Context {datetime : Type}.
Variable engine : Engine.
Implicit Types (s : Session datetime) (r : ClickEvent datetime).






End QuietServer.

Section StoreMore.
Context {datetime : Type}.
Variable engine : Engine.
Variable fromisoformat : string -> option datetime.
Variable utcnow : nat -> datetime.
Implicit Types (s : Session datetime) (d : Database datetime).

Lemma transform_from_In events : forall i ms,
  transform_from fromisoformat utcnow i events = Return ms ->
  List.length ms = List.length events /\
  forall evt, In evt events ->
              exists j m, transform_event fromisoformat (utcnow j) evt = Return m /\ In m ms.
Proof.
  induction events as [|x events IH]; intros i ms; cbn.
  - intros [= <-]. split; [reflexivity|intros evt []].
  - destruct (transform_event fromisoformat (utcnow i) x) as [m|] eqn:T; [|discriminate].
    cbn. destruct (transform_from fromisoformat utcnow (S i) events) as [ms'|] eqn:R;
      [|discriminate].
    intros [= <-]. destruct (IH (S i) ms' R) as [L H]. split; [cbn; now rewrite L|].
    intros evt [->|Hin].
    + exists i, m. split; [exact T|now left].
    + destruct (H evt Hin) as (j & m' & T' & Hm). exists j, m'. split; [exact T'|now right].
Qed.




(** X12.  One event that cannot be transformed sinks the batch: when some
    event of the batch makes [transform_event] raise, [store_events] raises
    and the table is the one it started from, even for the events that came
    before the malformed one. *)
Theorem store_events_malformed_event events d evt :
  In evt events ->
  (forall now, returns (transform_event fromisoformat now evt) = false) ->
  exists e fs,
    store_events engine fromisoformat utcnow events d
    = (Raise e, {| rows := rows d; failures := fs |}).
Proof.
  intros Hin Hbad.
  destruct (store_events engine fromisoformat utcnow events d) as [[n|e] d'] eqn:E.
  - apply store_events_returns in E. destruct E as (ms & ins & Hms & _).
    destruct (transform_from_In events 0 ms Hms) as [_ H].
    destruct (H evt Hin) as (j & m & T & _).
    specialize (Hbad (utcnow j)). rewrite T in Hbad. discriminate.
  - apply store_events_raises in E. exists e, (failures d').
    destruct d'; cbn in *. now subst.
Qed.

(** X13.  Rows are only ever appended: whatever the batch and whether
    [store_events] returns or raises, the rows stored before are all there
    afterwards, unchanged and first, so the record found for a stored [id]
    stays the one found before (an event with a stored [id] never updates
    it). *)
Theorem store_events_keeps_stored_rows events d :
  (exists added,
      rows (snd (store_events engine fromisoformat utcnow events d)) = rows d ++ added) /\
  (forall k r, find_pk (rows d) k = Some r ->
               find_pk (rows (snd (store_events engine fromisoformat utcnow events d))) k
               = Some r).
Proof.
  assert (exists added,
             rows (snd (store_events engine fromisoformat utcnow events d)) = rows d ++ added)
    as [added E].
  { destruct (store_events engine fromisoformat utcnow events d) as [[n|e] d'] eqn:E; cbn.
    - apply store_events_returns in E. destruct E as (ms & ins & _ & _ & -> & _). eauto.
    - apply store_events_raises in E. exists []. now rewrite app_nil_r. }
  split; [now exists added|].
  intros k r H. now rewrite E, find_pk_app, H.
Qed.


End StoreMore.

Lemma store_events_malformed_event_witness :
  exists e fs,
    store_events strict accept_all frozen_clock [click "y"; JInt 7]
      {| rows := [stored "x"]; failures := [] |}
    = (Raise e, {| rows := [stored "x"]; failures := fs |}).
Proof.
  apply (store_events_malformed_event strict accept_all frozen_clock [click "y"; JInt 7]
           {| rows := [stored "x"]; failures := [] |} (JInt 7)).
  - right. left. reflexivity.
  - reflexivity.
Defined.



(* ------------------------------------------------------------------ *)
(** ** [sync_posthog_events] and [main]: how the parts compose *)

Section MainMore.
Context {datetime : Type}.
Variable engine : Engine.
Variable fromisoformat : string -> option datetime.
Variable isoformat : datetime -> string.
Variable minus_one_day : datetime -> option datetime.
Variable make_url : string -> bool.
Variable serve : provider.
Variable utcnow : nat -> datetime.

Lemma not_HttpGet_DbSession q (sent : list request) :
  In (HttpGet q) (map HttpGet sent ++ [DbSession]) -> In q sent.
Proof.
  intros H. apply in_app_or in H. destruct H as [H|[H|[]]]; [|discriminate].
  apply in_map_iff in H. destruct H as (q' & [= ->] & H). exact H.
Qed.

(** A run that has sent a request has passed every check before it. *)
Lemma main_request_inv env fuel (now : datetime) args d acts r d' q :
  main engine fromisoformat isoformat minus_one_day make_url env serve utcnow fuel now args d
    = Some (acts, r, d') ->
  In (HttpGet q) acts ->
  exists start_dt end_dt sent res tail,
    forallb is_set (database_credentials env) = true /\
    make_url (engine_url env) = true /\
    hd false (failures d) = false /\
    window fromisoformat minus_one_day now args = Return (start_dt, end_dt) /\
    fetch_events env serve fuel (to_iso isoformat start_dt) (to_iso isoformat end_dt)
      (event_name args) (limit args) = Some (sent, res) /\
    acts = DbCreateAll :: map HttpGet sent ++ tail /\
    (tail = [] \/ tail = [DbSession]).
Proof.
  unfold main, sqlalchemy_setup.
  destruct (forallb is_set (database_credentials env)); cbn [negb];
    [|intros [= <- _ _] []].
  destruct (make_url (engine_url env)); cbn [negb]; [|intros [= <- _ _] []].
  unfold statement. cbn [SessionLocal failing].
  destruct (failures d) as [|[|] fs] eqn:Fd; cbn [hd];
    try (intros [= <- _ _] [H|[]]; discriminate H).
  - destruct (window fromisoformat minus_one_day now args) as [[s e]|x];
      [|intros [= <- _ _] [H|[]]; discriminate H].
    unfold sync_posthog_events.
    destruct (fetch_events env serve fuel _ _ _ _) as [[sent [events|x]]|] eqn:Fe;
      [| |discriminate].
    + destruct (store_events engine fromisoformat utcnow events _) as [[n|x] d2];
        intros [= <- _ _] _; exists s, e, sent, (Return events), [DbSession];
        repeat (split; [first [reflexivity|exact Fe]|]); now right.
    + intros [= <- _ _] _. exists s, e, sent, (Raise x), [].
      repeat (split; [first [reflexivity|exact Fe|cbn; now rewrite app_nil_r]|]); now left.
  - destruct (window fromisoformat minus_one_day now args) as [[s e]|x];
      [|intros [= <- _ _] [H|[]]; discriminate H].
    unfold sync_posthog_events.
    destruct (fetch_events env serve fuel _ _ _ _) as [[sent [events|x]]|] eqn:Fe;
      [| |discriminate].
    + destruct (store_events engine fromisoformat utcnow events _) as [[n|x] d2];
        intros [= <- _ _] _; exists s, e, sent, (Return events), [DbSession];
        repeat (split; [first [reflexivity|exact Fe]|]); now right.
    + intros [= <- _ _] _. exists s, e, sent, (Raise x), [].
      repeat (split; [first [reflexivity|exact Fe|cbn; now rewrite app_nil_r]|]); now left.
Qed.


(** X17.  The default window: a run without [--start] and [--end] (or with
    empty ones) that sends a request at all sends first, right after the
    creation of the tables, the request for the day that ends now:
    [after] is a day before [now] and [before] is [now], both with the [Z]
    appended. *)
Theorem main_default_window env cfg fuel (now : datetime) args d y acts r d' q :
  is_set (start args) = false -> is_set (end_ args) = false ->
  minus_one_day now = Some y ->
  _get_posthog_config env = Return cfg ->
  main engine fromisoformat isoformat minus_one_day make_url env serve utcnow fuel now args d
    = Some (acts, r, d') ->
  In (HttpGet q) acts ->
  exists rest,
    acts = DbCreateAll
           :: HttpGet {| req_url := JStr (events_url cfg);
                         req_headers := request_headers cfg;
                         req_params :=
                           Some [("after", JStr (isoformat y ++ "Z"));
                                 ("before", JStr (isoformat now ++ "Z"));
                                 ("event", JStr (event_name args));
                                 ("limit", JInt (limit args))];
                         req_timeout := 30 |}
           :: rest.
Proof.
  intros Hs He Hy Hcfg Hm Hq.
  destruct (main_request_inv _ _ _ _ _ _ _ _ _ Hm Hq)
    as (s & e & sent & res & tail & _ & _ & _ & Hw & Hfe & -> & _).
  unfold window in Hw. rewrite He in Hw. cbn [bind] in Hw. rewrite Hs, Hy in Hw.
  cbn [bind] in Hw. injection Hw as <- <-.
  unfold fetch_events in Hfe. rewrite Hcfg in Hfe.
  apply fetch_pages_requests in Hfe. destruct Hfe as (more & -> & _ & Hfirst).
  destruct (Hfirst (events_url_truthy cfg)) as [rest ->].
  exists (map HttpGet rest ++ tail). cbn [app map]. do 2 f_equal.
  unfold page_request, eq_str. now rewrite String.eqb_refl.
Qed.

(** X18.  No request leaves before the startup checks have passed: when a
    run has sent a request, the database credentials were all set,
    [create_engine] accepted the URL, [create_all] did not fail and came
    first, the dates of the command line parsed, and the PostHog
    configuration was complete. *)
Theorem main_requests_after_checks env fuel (now : datetime) args d acts r d' q :
  main engine fromisoformat isoformat minus_one_day make_url env serve utcnow fuel now args d
    = Some (acts, r, d') ->
  In (HttpGet q) acts ->
  forallb is_set (database_credentials env) = true /\
  make_url (engine_url env) = true /\
  hd false (failures d) = false /\
  returns (window fromisoformat minus_one_day now args) = true /\
  returns (_get_posthog_config env) = true /\
  exists rest, acts = DbCreateAll :: rest.
Proof.
  intros Hm Hq.
  destruct (main_request_inv _ _ _ _ _ _ _ _ _ Hm Hq)
    as (s & e & sent & res & tail & Hdb & Hurl & Hf & Hw & Hfe & Ha & Ht).
  split; [exact Hdb|]. split; [exact Hurl|]. split; [exact Hf|].
  split; [now rewrite Hw|]. split; [|eauto].
  unfold fetch_events in Hfe.
  destruct (_get_posthog_config env); [reflexivity|].
  injection Hfe as <- _. subst acts. exfalso.
  destruct Ht as [-> | ->]; cbn in Hq.
  - destruct Hq as [Hq|[]]. discriminate Hq.
  - destruct Hq as [Hq|[Hq|[]]]; discriminate Hq.
Qed.
End MainMore.


Lemma main_default_window_witness :
  exists acts r d' rest,
    main strict accept_all (fun dt : string => dt) day_before (fun _ => true) (env_of full_env)
      (scripted three_pages) frozen_clock 3 "2025-09-16T08:00:00" no_arguments
      {| rows := [stored "a"]; failures := [] |} = Some (acts, r, d') /\
    acts = DbCreateAll
           :: HttpGet {| req_url := JStr first_url;
                         req_headers := [("Authorization", "Bearer phx_key");
                                         ("Content-Type", "application/json")];
                         req_params :=
                           Some [("after", JStr "day before 2025-09-16T08:00:00Z");
                                 ("before", JStr "2025-09-16T08:00:00Z");
                                 ("event", JStr "$autocapture");
                                 ("limit", JInt 100)];
                         req_timeout := 30 |}
           :: rest.
Proof.
  do 3 eexists.
  assert (main strict accept_all (fun dt : string => dt) day_before (fun _ => true)
            (env_of full_env) (scripted three_pages) frozen_clock 3
            "2025-09-16T08:00:00" no_arguments
            {| rows := [stored "a"]; failures := [] |} = Some (_, _, _)) as H
    by (vm_compute; reflexivity).
  destruct (main_default_window strict accept_all (fun dt : string => dt) day_before
              (fun _ => true) (scripted three_pages) frozen_clock (env_of full_env)
              {| api_key := "phx_key"; project_id := "1";
                 base_url := "https://us.posthog.com" |}
              3 "2025-09-16T08:00:00" no_arguments _
              "day before 2025-09-16T08:00:00" _ _ _ _
              eq_refl eq_refl eq_refl eq_refl H (or_intror (or_introl eq_refl)))
    as [rest E].
  exists rest. split; [exact H|exact E].
Defined.

Lemma main_requests_after_checks_witness :
  forallb is_set (database_credentials (env_of full_env)) = true /\
  returns (_get_posthog_config (env_of full_env)) = true.
Proof.
  assert (main strict accept_all (fun dt : string => dt) day_before (fun _ => true)
            (env_of full_env) (scripted three_pages) frozen_clock 3
            "2025-09-16T08:00:00" no_arguments
            {| rows := [stored "a"]; failures := [] |} = Some (_, _, _)) as H
    by (vm_compute; reflexivity).
  destruct (main_requests_after_checks strict accept_all (fun dt : string => dt) day_before
              (fun _ => true) (scripted three_pages) frozen_clock (env_of full_env)
              3 "2025-09-16T08:00:00" no_arguments _ _ _ _ _ H
              (or_intror (or_introl eq_refl)))
    as (Hdb & _ & _ & _ & Hcfg & _).
  split; [exact Hdb|exact Hcfg].
Defined.
